(** * HPC hotspot analysis: a shallow embedding of [matrix/analyze_hotspots.py]

    The development follows the script top to bottom: the Python builtins it
    relies on ([str] methods, [float], [sorted]), then [parse_gprof_file],
    [analyze_hotspots], [generate_parallelization_recommendations] and the
    rollup computed by [main], and finally the properties of each.

    Conventions.
    - A Python [str] is a Rocq [string] read as a sequence of code points
      below 256; the predicates on characters ([is_space], [lower_char], line
      boundaries) are Python's restricted to that range.
    - A Python [float] is a [spec_float] with the binary64 parameters
      ([prec = 53], [emax = 1024]) and the operations of the Standard
      Library's IEEE 754 specification.
    - An exception is a value of [exn]; code that can raise returns a
      [result]. *)

From Stdlib Require Import ZArith Zpower List String Ascii Bool Lia Arith.
From Stdlib Require Import Permutation Sorted.
From Stdlib Require Import SpecFloat.
Import ListNotations.

Local Open Scope string_scope.
Local Open Scope bool_scope.
Local Open Scope nat_scope.

(** ** Exceptions *)

Inductive exn : Type :=
| ValueError
| IndexError
| KeyError
| OSError.

Inductive result (A : Type) : Type :=
| Ok (a : A)
| Raise (e : exn).

Arguments Ok {A} a.
Arguments Raise {A} e.

Definition bind {A B : Type} (r : result A) (k : A -> result B) : result B :=
  match r with
  | Ok a => k a
  | Raise e => Raise e
  end.

Notation "x <- r ;; k" := (bind r (fun x => k))
  (at level 61, r at next level, right associativity).

(** ** Python [str] builtins *)

Module PyStr.

(** [str.isspace] on one code point below 256: TAB..CR, FS..US, SPACE,
    NEL and NBSP. *)
Definition is_space (c : ascii) : bool :=
  let n := nat_of_ascii c in
  ((9 <=? n) && (n <=? 13)) || ((28 <=? n) && (n <=? 32))
  || (n =? 133) || (n =? 160).

(** [str.lower] on one code point below 256: A..Z and the Latin-1 capitals
    (192..222 without the multiplication sign 215) move up by 32. *)
Definition lower_char (c : ascii) : ascii :=
  let n := nat_of_ascii c in
  if ((65 <=? n) && (n <=? 90))
     || ((192 <=? n) && (n <=? 222) && negb (n =? 215))
  then ascii_of_nat (n + 32)
  else c.

Fixpoint lower (s : string) : string :=
  match s with
  | EmptyString => EmptyString
  | String c s' => String (lower_char c) (lower s')
  end.

(** [s.startswith(p)] *)
Fixpoint startswith (s p : string) {struct p} : bool :=
  match p, s with
  | EmptyString, _ => true
  | String _ _, EmptyString => false
  | String a p', String b s' => Ascii.eqb a b && startswith s' p'
  end.

(** [k in s] for two strings. *)
Fixpoint str_in (k s : string) : bool :=
  startswith s k ||
  match s with
  | EmptyString => false
  | String _ s' => str_in k s'
  end.

Fixpoint lstrip (s : string) : string :=
  match s with
  | EmptyString => EmptyString
  | String c s' => if is_space c then lstrip s' else s
  end.

Fixpoint rstrip (s : string) : string :=
  match s with
  | EmptyString => EmptyString
  | String c s' =>
      match rstrip s' with
      | EmptyString => if is_space c then EmptyString else String c EmptyString
      | r => String c r
      end
  end.

(** [s.strip()] *)
Definition strip (s : string) : string := rstrip (lstrip s).

(** [s.split()]: the maximal runs of non-space characters, in order.
    [cur] is the run being read, reversed. *)
Fixpoint split_aux (s : string) (cur : list ascii) : list string :=
  let flush (rest : list string) :=
    match cur with
    | [] => rest
    | _ => string_of_list_ascii (rev cur) :: rest
    end in
  match s with
  | EmptyString => flush []
  | String c s' =>
      if is_space c then flush (split_aux s' [])
      else split_aux s' (c :: cur)
  end.

Definition split (s : string) : list string := split_aux s [].

(** Line boundaries of [str.splitlines] below 256, CR LF counting as one. *)
Definition is_linebreak (c : ascii) : bool :=
  let n := nat_of_ascii c in
  ((10 <=? n) && (n <=? 13)) || ((28 <=? n) && (n <=? 30)) || (n =? 133).

(** [s.splitlines()]: no line is produced after a final boundary. *)
Fixpoint splitlines_aux (s : string) (cur : list ascii) : list string :=
  match s with
  | EmptyString =>
      match cur with
      | [] => []
      | _ => [string_of_list_ascii (rev cur)]
      end
  | String c s' =>
      if is_linebreak c then
        string_of_list_ascii (rev cur) ::
        match s' with
        | String d s'' =>
            if (nat_of_ascii c =? 13) && (nat_of_ascii d =? 10)
            then splitlines_aux s'' []
            else splitlines_aux s' []
        | EmptyString => []
        end
      else splitlines_aux s' (c :: cur)
  end.

Definition splitlines (s : string) : list string := splitlines_aux s [].

End PyStr.

(** ** Python [float] *)

Module PyFloat.

Definition prec : Z := 53.
Definition emax : Z := 1024.

Definition float : Type := spec_float.

Definition nan : float := S754_nan.
Definition inf (neg : bool) : float := S754_infinity neg.

Definition add : float -> float -> float := SFadd prec emax.
Definition mul : float -> float -> float := SFmul prec emax.
Definition div : float -> float -> float := SFdiv prec emax.

(** [x < y], [x <= y], [x > y], [x >= y], [x == y]: all false on a NaN. *)
Definition lt (x y : float) : bool := SFltb x y.
Definition le (x y : float) : bool := SFleb x y.
Definition gt (x y : float) : bool := SFltb y x.
Definition ge (x y : float) : bool := SFleb y x.
Definition eq (x y : float) : bool := SFeqb x y.

Definition is_nan (x : float) : bool :=
  match x with S754_nan => true | _ => false end.

Definition is_finite (x : float) : bool :=
  match x with S754_zero _ | S754_finite _ _ _ => true | _ => false end.

(** The float an [int] literal converts to in mixed arithmetic and
    comparisons (exact for the small literals of the script). *)
Definition of_int (n : Z) : float := binary_normalize prec emax n 0 false.

(** *** [float(str)] *)

Definition is_digit (c : ascii) : bool :=
  let n := nat_of_ascii c in (48 <=? n) && (n <=? 57).

Definition digit_value (c : ascii) : Z := Z.of_nat (nat_of_ascii c - 48).

Definition is_underscore (c : ascii) : bool := nat_of_ascii c =? 95.

(** Digit separators: an underscore must stand between two digits; the
    string is returned without them. [prev] is the character before [s]. *)
Fixpoint remove_underscores (prev : ascii) (s : string) : option string :=
  match s with
  | EmptyString => if is_underscore prev then None else Some EmptyString
  | String c s' =>
      if is_underscore c then
        if is_digit prev then remove_underscores c s' else None
      else if is_underscore prev && negb (is_digit c) then None
      else option_map (String c) (remove_underscores c s')
  end.

(** An optional sign; [true] for a minus. *)
Definition read_sign (s : string) : bool * string :=
  match s with
  | String c s' =>
      if nat_of_ascii c =? 45 then (true, s')
      else if nat_of_ascii c =? 43 then (false, s')
      else (false, s)
  | EmptyString => (false, s)
  end.

(** The longest run of digits at the head of [s]: its value continuing
    [acc], how many digits were read, and the rest of the string. *)
Fixpoint read_digits (s : string) (acc : Z) (n : Z) : Z * Z * string :=
  match s with
  | String c s' =>
      if is_digit c then read_digits s' (10 * acc + digit_value c)%Z (n + 1)%Z
      else (acc, n, s)
  | EmptyString => (acc, n, s)
  end.

(** The float nearest to [d * 10 ^ k] (ties to even), for [0 <= d];
    the sign is carried by [neg]. Out of range gives an infinity. *)
Definition of_decimal (neg : bool) (d k : Z) : float :=
  match d with
  | Z0 => S754_zero neg
  | Zpos p =>
      if (0 <=? k)%Z then
        binary_normalize prec emax (if neg then - (d * 10 ^ k) else d * 10 ^ k)%Z 0 neg
      else
        let '(q, e, l) := SFdiv_core_binary prec emax d 0 (10 ^ (- k))%Z 0 in
        binary_round_aux prec emax neg q e l
  | Zneg _ => S754_nan
  end.

(** A decimal numeral after its sign: digits, an optional point and more
    digits (one digit at least in all), an optional exponent; nothing may
    follow. *)
Definition parse_decimal (neg : bool) (s : string) : option float :=
  let '(i, ni, s1) := read_digits s 0%Z 0%Z in
  let '(d, nf, s2) :=
    match s1 with
    | String c s1' =>
        if nat_of_ascii c =? 46 then read_digits s1' i 0%Z else (i, 0%Z, s1)
    | EmptyString => (i, 0%Z, s1)
    end in
  if (ni + nf =? 0)%Z then None
  else
    match s2 with
    | EmptyString => Some (of_decimal neg d (- nf))
    | String c s2' =>
        if (nat_of_ascii c =? 101) || (nat_of_ascii c =? 69) then
          let '(eneg, s3) := read_sign s2' in
          let '(x, nx, s4) := read_digits s3 0%Z 0%Z in
          if (nx =? 0)%Z then None
          else
            match s4 with
            | EmptyString =>
                Some (of_decimal neg d ((if eneg then - x else x) - nf))
            | String _ _ => None
            end
        else None
    end.

(** [float(s)] for a string without surrounding white space; [ValueError]
    when [s] is not a numeral. *)
Definition float_of_str (s : string) : result float :=
  match remove_underscores "000"%char s with
  | None => Raise ValueError
  | Some t =>
      let '(neg, body) := read_sign t in
      let word := PyStr.lower body in
      if String.eqb word "inf" || String.eqb word "infinity" then Ok (inf neg)
      else if String.eqb word "nan" then Ok nan
      else
        match parse_decimal neg body with
        | Some x => Ok x
        | None => Raise ValueError
        end
  end.

End PyFloat.

(** ** The script *)

Module Hotspots.
Import PyStr PyFloat.

(** *** Records and verdicts *)

(** One entry of [functions]: the dict built at lines 69-75. *)
Record function_record : Type := {
  name : string;
  time_percent : float;
  cumulative_seconds : float;
  self_seconds : float;
  calls : string
}.

(** The value under ['parallelizable']: [True], [False] or [None]. *)
Inductive tristate : Type := PyTrue | PyFalse | PyNone.

(** [if v:] on such a value. *)
Definition truthy (v : tristate) : bool :=
  match v with PyTrue => true | _ => false end.

(** One recommendation dict. *)
Record recommendation : Type := {
  parallelizable : tristate;
  complexity : string;
  pattern : string;
  platforms : list string;
  strategy : string;
  justification : string
}.

(** *** The input source *)

(** What the path given to [parse_gprof_file] leads to: nothing, something
    [open] fails on (a directory, a file without read permission), or a
    text file with its decoded content. *)
Inductive path_state : Type :=
| Missing
| Unreadable
| Readable (content : string).

Definition filesystem : Type := string -> path_state.

(** *** [parse_gprof_file] *)

Definition newline : ascii := "010"%char.

(** Group 1 of [Flat profile:(.*?)(?=\nCall graph|$)] under [re.DOTALL],
    matched from the character after the marker: the shortest prefix after
    which comes a newline and [Call graph], the end of the text, or a last
    newline that ends the text. *)
Fixpoint lazy_group (s : string) : string :=
  match s with
  | EmptyString => EmptyString
  | String c s' =>
      if startswith s (String newline "Call graph")
         || String.eqb s (String newline EmptyString)
      then EmptyString
      else String c (lazy_group s')
  end.

Fixpoint drop (n : nat) (s : string) : string :=
  match n, s with
  | S n', String _ s' => drop n' s'
  | _, _ => s
  end.

(** [re.search(...)] at line 24, returning [group(1)] of the leftmost
    match, or [None]. *)
Fixpoint flat_profile_section (content : string) : option string :=
  if startswith content "Flat profile:" then
    Some (lazy_group (drop (String.length "Flat profile:") content))
  else
    match content with
    | EmptyString => None
    | String _ rest => flat_profile_section rest
    end.

(** [parts[i]] *)
Definition getitem (parts : list string) (i : nat) : result string :=
  match nth_error parts i with
  | Some p => Ok p
  | None => Raise IndexError
  end.

(** [parts[-1]] *)
Definition getitem_last (parts : list string) : result string :=
  match rev parts with
  | p :: _ => Ok p
  | [] => Raise IndexError
  end.

(** The body of the [try] at lines 60-75: [Ok (Some r)] when the record [r]
    is appended, [Ok None] when the [continue] of line 67 is taken. *)
Definition try_row (parts : list string) : result (option function_record) :=
  p0 <- getitem parts 0 ;;
  time_percent <- float_of_str p0 ;;
  p1 <- getitem parts 1 ;;
  cumulative_seconds <- float_of_str p1 ;;
  p2 <- getitem parts 2 ;;
  self_seconds <- float_of_str p2 ;;
  p3 <- getitem parts 3 ;;
  let calls := if negb (String.eqb p3 "null") then p3 else "0" in
  function_name <- getitem_last parts ;;
  if lt time_percent (of_int 0) || lt self_seconds (of_int 0) then Ok None
  else Ok (Some {| name := function_name;
                   time_percent := time_percent;
                   cumulative_seconds := cumulative_seconds;
                   self_seconds := self_seconds;
                   calls := calls |}).

(** The [for] loop of lines 34-77 over the remaining [lines], from the
    state ([header_found], [functions]). *)
Fixpoint parse_lines (lines : list string) (header_found : bool)
         (functions : list function_record)
  : result (list function_record) :=
  match lines with
  | [] => Ok functions
  | line :: rest =>
      let stripped := strip line in
      if String.eqb stripped "" then parse_lines rest header_found functions
      else if negb header_found then
        if startswith stripped "%" || startswith (lower stripped) "time"
        then parse_lines rest true functions
        else parse_lines rest header_found functions
      else if startswith stripped "Call graph" then Ok functions
      else if str_in "name" (lower stripped)
              || startswith stripped "cumulative"
              || startswith stripped "seconds"
      then parse_lines rest header_found functions
      else
        let parts := split stripped in
        if List.length parts <? 5 then parse_lines rest header_found functions
        else
          match try_row parts with
          | Ok (Some r) => parse_lines rest header_found (functions ++ [r])
          | Ok None => parse_lines rest header_found functions
          | Raise ValueError | Raise IndexError =>
              parse_lines rest header_found functions
          | Raise e => Raise e
          end
  end.

(** [sorted(l, key=key, reverse=True)]: Python's sort is stable and
    compares keys with [<] only; with [reverse=True] elements whose keys
    compare equal keep their original order. Where [<] orders the keys
    totally (no NaN among them) this is the list Python returns; with a NaN
    among the keys Python promises a permutation of [l] and no more. *)
Fixpoint insert_reverse {A : Type} (key : A -> float) (x : A) (l : list A)
  : list A :=
  match l with
  | [] => [x]
  | y :: l' =>
      if lt (key x) (key y) then y :: insert_reverse key x l' else x :: l
  end.

Definition sorted_reverse {A : Type} (key : A -> float) (l : list A) : list A :=
  fold_right (insert_reverse key) [] l.

(** [parse_gprof_file(filename)]: the lines printed and the value returned
    ([Ok None] for Python's [None]) or the exception raised. *)
Definition parse_gprof_file (fs : filesystem) (filename : string)
  : list string * result (option (list function_record)) :=
  match fs filename with
  | Missing => (["Error: " ++ filename ++ " not found"], Ok None)
  | Unreadable => ([], Raise OSError)
  | Readable content =>
      match flat_profile_section content with
      | None => (["No flat profile found in " ++ filename], Ok None)
      | Some section =>
          ([], functions <- parse_lines (splitlines section) false [] ;;
               Ok (Some (sorted_reverse time_percent functions)))
      end
  end.

(** *** [analyze_hotspots] *)

Definition analyze_hotspots (functions : list function_record)
           (threshold : float) : list function_record :=
  match functions with
  | [] => []
  | _ => filter (fun f => ge (time_percent f) threshold) functions
  end.

(** *** [generate_parallelization_recommendations] *)

Definition cubic : string := "O(n" ++ String "179"%char ")".
Definition quadratic : string := "O(n" ++ String "178"%char ")".

(** The dict literal of lines 90-155, in insertion order. *)
Definition recommendations : list (string * recommendation) :=
  [ ("matrix_multiply",
     {| parallelizable := PyTrue;
        complexity := cubic;
        pattern := "Triple nested loops with independent (i,j) iterations";
        platforms := ["OpenMP"; "CUDA"];
        strategy := "Block decomposition, GPU thread blocks for (i,j) pairs";
        justification := "Highly parallel, regular memory access, compute-intensive, no dependencies between result elements" |});
    ("blocked_matrix_multiply",
     {| parallelizable := PyTrue;
        complexity := cubic;
        pattern := "Cache-blocked nested loops with independent blocks";
        platforms := ["OpenMP"];
        strategy := "Parallel execution of independent blocks using OpenMP collapse directive";
        justification := "Cache-friendly algorithm excellent for CPU parallelization, maintains locality" |});
    ("matrix_vector_multiply",
     {| parallelizable := PyTrue;
        complexity := quadratic;
        pattern := "Matrix rows processed independently";
        platforms := ["OpenMP"; "CUDA"];
        strategy := "Parallel loop over rows, or GPU threads per output element";
        justification := "Independent row computations, good memory locality, moderate parallelism" |});
    ("data_preprocessing",
     {| parallelizable := PyTrue;
        complexity := "O(n)";
        pattern := "Independent element-wise mathematical operations";
        platforms := ["OpenMP"];
        strategy := "SIMD vectorization with parallel for directive";
        justification := "Element-wise operations (sin, cos, sqrt), no dependencies, SIMD-friendly" |});
    ("data_postprocessing",
     {| parallelizable := PyFalse;
        complexity := "O(n)";
        pattern := "Sequential dependencies between array elements";
        platforms := ["Sequential only"];
        strategy := "Limited parallelization due to dependency chain";
        justification := "Each element depends on previous element (data[i] += data[i-1] * 0.05)" |});
    ("vector_operations",
     {| parallelizable := PyTrue;
        complexity := "O(n)";
        pattern := "Element-wise vector computations";
        platforms := ["OpenMP"; "CUDA"];
        strategy := "SIMD vectorization or GPU kernel launch";
        justification := "Embarrassingly parallel, high arithmetic intensity with sqrt, sin, cos operations" |});
    ("initialize_data",
     {| parallelizable := PyTrue;
        complexity := quadratic;
        pattern := "Independent matrix element initialization";
        platforms := ["OpenMP"];
        strategy := "Parallel nested loops for matrix initialization";
        justification := "Independent computations with trigonometric functions per element" |});
    ("calculate_checksum",
     {| parallelizable := PyTrue;
        complexity := quadratic;
        pattern := "Reduction operation over matrix elements";
        platforms := ["OpenMP"];
        strategy := "Parallel reduction with OpenMP reduction clause";
        justification := "Associative sum operation, perfect for parallel reduction" |}) ].

(** [d[key]] *)
Fixpoint dict_getitem {V : Type} (d : list (string * V)) (key : string)
  : result V :=
  match d with
  | [] => Raise KeyError
  | (k, v) :: d' => if String.eqb k key then Ok v else dict_getitem d' key
  end.

(** The dict returned at lines 176-183. *)
Definition unknown_recommendation : recommendation :=
  {| parallelizable := PyNone;
     complexity := "Unknown";
     pattern := "Requires manual analysis";
     platforms := ["Manual analysis needed"];
     strategy := "Profile function behavior and analyze dependencies";
     justification := "Function characteristics need detailed examination" |}.

(** The [for] loop of lines 157-159 over [d.items()]: the value of the
    first key found in [lowered]. *)
Fixpoint first_match (d : list (string * recommendation)) (lowered : string)
  : option recommendation :=
  match d with
  | [] => None
  | (key, rec) :: d' =>
      if str_in key lowered then Some rec else first_match d' lowered
  end.

Definition generate_parallelization_recommendations (function_name : string)
  : result recommendation :=
  let lowered := lower function_name in
  match first_match recommendations lowered with
  | Some rec => Ok rec
  | None =>
      if str_in "multiply" lowered || str_in "matmul" lowered then
        dict_getitem recommendations "matrix_multiply"
      else if str_in "vector" lowered && str_in "multiply" lowered then
        dict_getitem recommendations "matrix_vector_multiply"
      else if str_in "preprocess" lowered then
        dict_getitem recommendations "data_preprocessing"
      else if str_in "postprocess" lowered then
        dict_getitem recommendations "data_postprocessing"
      else if str_in "vector" lowered then
        dict_getitem recommendations "vector_operations"
      else if str_in "init" lowered then
        dict_getitem recommendations "initialize_data"
      else if str_in "sum" lowered || str_in "checksum" lowered then
        dict_getitem recommendations "calculate_checksum"
      else Ok unknown_recommendation
  end.

(** *** The rollup of [main] *)

(** The loop of lines 245-264 without its printing, from the state
    ([total_hotspot_time], [parallelizable_time]). *)
Fixpoint main_loop (hotspots : list function_record)
         (total_hotspot_time parallelizable_time : float)
  : result (float * float) :=
  match hotspots with
  | [] => Ok (total_hotspot_time, parallelizable_time)
  | hotspot :: rest =>
      let total_hotspot_time := add total_hotspot_time (time_percent hotspot) in
      rec <- generate_parallelization_recommendations (name hotspot) ;;
      let parallelizable_time :=
        if truthy (parallelizable rec)
        then add parallelizable_time (time_percent hotspot)
        else parallelizable_time in
      main_loop rest total_hotspot_time parallelizable_time
  end.

(** Lines 268-271. *)
Definition efficiency (total_hotspot_time parallelizable_time : float) : float :=
  if gt total_hotspot_time (of_int 0)
  then mul (div parallelizable_time total_hotspot_time) (of_int 100)
  else of_int 0.

(** The three branches of lines 279-286. *)
Inductive tier : Type := High | Moderate | Limited.

Definition tier_message (t : tier) : string :=
  match t with
  | High => "HIGH PARALLELIZATION POTENTIAL"
  | Moderate => "MODERATE PARALLELIZATION POTENTIAL"
  | Limited => "LIMITED PARALLELIZATION POTENTIAL"
  end.

Definition platform_tier (parallelizable_time : float) : tier :=
  if gt parallelizable_time (of_int 50) then High
  else if gt parallelizable_time (of_int 20) then Moderate
  else Limited.

(** The figures [main] reports for a hotspot list. *)
Record summary : Type := {
  total_hotspot_time : float;
  parallelizable_time : float;
  parallel_efficiency : float;
  speedup_potential : float;
  potential : tier
}.

Definition main_summary (hotspots : list function_record) : result summary :=
  tp <- main_loop hotspots (of_int 0) (of_int 0) ;;
  let '(total, par) := tp in
  Ok {| total_hotspot_time := total;
        parallelizable_time := par;
        parallel_efficiency := efficiency total par;
        speedup_potential := div par (of_int 100);
        potential := platform_tier par |}.

End Hotspots.

Import PyStr PyFloat Hotspots.

(** ** Definitions used to state the properties *)

(** The keys enumerated before [key] by [d.items()]. *)
Fixpoint keys_before {V : Type} (d : list (string * V)) (key : string)
  : list string :=
  match d with
  | [] => []
  | (k, _) :: d' => if String.eqb k key then [] else k :: keys_before d' key
  end.

(** A list of records in descending order of [time_percent]: each record's
    share is [>=] the share of every record after it. *)
Definition descending (l : list function_record) : Prop :=
  StronglySorted
    (fun a b => ge (time_percent a) (time_percent b) = true) l.

(** The records of [l] whose share compares equal to [v], in the order of [l]. *)
Definition with_share (v : float) (l : list function_record)
  : list function_record :=
  filter (fun r => eq (time_percent r) v) l.

(** *** The extraction, stated line by line

    These definitions follow the description of the extractor rather than
    its loop: they are compared with [parse_lines] below. *)

(** A header line: it starts with a percent sign or, in any case, with "time". *)
Definition is_header (stripped : string) : bool :=
  startswith stripped "%" || startswith (lower stripped) "time".

(** The line that starts the next section. *)
Definition is_section_end (stripped : string) : bool :=
  startswith stripped "Call graph".

(** A secondary header fragment: it contains "name" in any case, or starts
    with "cumulative" or "seconds". *)
Definition is_header_fragment (stripped : string) : bool :=
  str_in "name" (lower stripped)
  || startswith stripped "cumulative"
  || startswith stripped "seconds".

(** The lines of the section, stripped, without the blank ones. *)
Definition nonblank_lines (lines : list string) : list string :=
  filter (fun l => negb (String.eqb l "")) (map strip lines).

(** What follows the first header line. *)
Fixpoint after_header (ls : list string) : list string :=
  match ls with
  | [] => []
  | l :: rest => if is_header l then rest else after_header rest
  end.

(** What precedes the first line that starts the next section. *)
Fixpoint until_section_end (ls : list string) : list string :=
  match ls with
  | [] => []
  | l :: rest => if is_section_end l then [] else l :: until_section_end rest
  end.

(** The candidate data rows of a section: after the header, before the next
    section, header fragments left out. *)
Definition candidate_rows (lines : list string) : list string :=
  filter (fun l => negb (is_header_fragment l))
         (until_section_end (after_header (nonblank_lines lines))).

(** The record a list of tokens stands for: five tokens at least, the first
    three read as floats, neither [time_percent] nor [self_seconds] below
    zero; the name is the last token, and the placeholder "null" for the call
    count reads as "0". *)
Definition tokens_record (parts : list string) : option function_record :=
  match parts with
  | t0 :: t1 :: t2 :: t3 :: t4 :: more =>
      match float_of_str t0, float_of_str t1, float_of_str t2 with
      | Ok share, Ok cumulative, Ok self =>
          if lt share (of_int 0) || lt self (of_int 0) then None
          else Some {| name := last more t4;
                       time_percent := share;
                       cumulative_seconds := cumulative;
                       self_seconds := self;
                       calls := if String.eqb t3 "null" then "0" else t3 |}
      | _, _, _ => None
      end
  | _ => None
  end.

Definition row_record (stripped : string) : option function_record :=
  tokens_record (split stripped).

Definition records_of (rows : list string) : list function_record :=
  flat_map (fun l => match row_record l with Some r => [r] | None => [] end)
           rows.

(** The candidate rows left in [lines] once the loop is in the state
    [header_found]. *)
Definition rows_from (header_found : bool) (lines : list string) : list string :=
  filter (fun l => negb (is_header_fragment l))
         (until_section_end
            (if header_found then nonblank_lines lines
             else after_header (nonblank_lines lines))).

(** The data rows of a section, and their records in the order of the text. *)
Definition data_rows (lines : list string) : list string :=
  filter (fun l => match row_record l with Some _ => true | None => false end)
         (candidate_rows lines).

Definition data_records (lines : list string) : list function_record :=
  records_of (candidate_rows lines).

(** A well-formed data row in the sense of C7: five tokens at least, with
    [time_percent] and [self_seconds] that read as floats and are [>= 0]. *)
Definition well_formed_row (line : string) : bool :=
  match split line with
  | t0 :: _ :: t2 :: _ :: _ :: _ =>
      match float_of_str t0, float_of_str t2 with
      | Ok share, Ok self => ge share (of_int 0) && ge self (of_int 0)
      | _, _ => false
      end
  | _ => false
  end.

(** A numeric call count: a non-empty string of decimal digits. *)
Fixpoint all_digits (s : string) : bool :=
  match s with
  | EmptyString => true
  | String c s' => is_digit c && all_digits s'
  end.

Definition numeric_token (t : string) : bool :=
  negb (String.eqb t "") && all_digits t.

(** Sample inputs. *)
Definition lines_text (lines : list string) : string :=
  String.concat (String newline "") lines.

Definition sample_profile : string :=
  lines_text
    [ "Flat profile:";
      "";
      "Each sample counts as 0.01 seconds.";
      "  %   cumulative   self              self     total";
      " time   seconds   seconds    calls  ms/call  ms/call  name";
      " 12.50      1.20     1.00      500     2.00     2.00  matrix_multiply";
      "  0.40      1.21     0.01       10     1.00     1.00  helper";
      "";
      "Call graph";
      " 99.00      1.00     1.00        1     1.00     1.00  ignored" ].

(** A data row with no header line before it. *)
Definition headerless_profile : string :=
  lines_text
    [ "Flat profile:";
      " 12.50      1.20     1.00      500     2.00     2.00  matrix_multiply" ].

(** A data row whose call count is not a number. *)
Definition odd_calls_row : string :=
  " 12.50      1.20     1.00      n/a     2.00     2.00  matrix_multiply".

(** Three data rows, the second with a share that reads as a NaN. *)
Definition nan_profile : string :=
  lines_text
    [ "Flat profile:";
      " time   seconds   seconds    calls  ms/call  ms/call  name";
      "  1.00      0.10     0.10        5     1.00     1.00  first";
      "   nan      0.20     0.10        5     1.00     1.00  second";
      "  2.00      0.30     0.10        5     1.00     1.00  third" ].

Definition only_file (content : string) : filesystem :=
  fun _ => Readable content.

Definition no_file : filesystem := fun _ => Missing.

(** *** Rounding, stated on integers

    The value of a binary64 float is an integer number of units of
    [2 ^ -1074]; the arithmetic of [SpecFloat] is described below as exact
    integer arithmetic followed by one rounding. *)

Section RoundingDefinitions.

Local Open Scope Z_scope.

(** The round and sticky bits a location stands for, and back. *)
Definition loc_r (l : location) : bool := shr_r (shr_record_of_loc 0 l).
Definition loc_s (l : location) : bool := shr_s (shr_record_of_loc 0 l).
Definition loc_of (r s : bool) : location :=
  loc_of_shr_record {| shr_m := 0; shr_r := r; shr_s := s |}.

(** The mantissa [binary_round_aux] rounds to, before any carry: [m] with
    location [l] loses [n] bits and is rounded to nearest, ties to even. *)
Definition rnd (m : Z) (l : location) (n : Z) : Z :=
  if n <=? 0 then round_nearest_even m l
  else round_nearest_even
         (m / 2 ^ n)
         (loc_of (Z.odd (m / 2 ^ (n - 1)))
                 (loc_r l || loc_s l || negb (m mod 2 ^ (n - 1) =? 0))).

(** The finite float of mantissa [m] and exponent [c], or the infinity when
    [c] is out of range. *)
Definition fin_or_inf (m c : Z) : spec_float :=
  if c <=? 971 then S754_finite false (Z.to_pos m) c else S754_infinity false.

(** The float of mantissa [m1 <= 2 ^ 53] and exponent [c]. *)
Definition pack (m1 c : Z) : spec_float :=
  if m1 =? 0 then S754_zero false
  else if m1 <? 2 ^ 53 then fin_or_inf m1 c
       else fin_or_inf (2 ^ 52) (c + 1).

(** The value of the infinity, and of every float, in units of [2 ^ -1074]. *)
Definition top : Z := 2 ^ 2098.

Definition units (x : spec_float) : Z :=
  match x with
  | S754_zero _ => 0
  | S754_infinity _ => top
  | S754_nan => 0
  | S754_finite _ m e => Z.pos m * 2 ^ (e + 1074)
  end.

(** A binary64 value that is not negative: a zero, a positive finite float
    in canonical form, or the positive infinity. *)
Definition nonneg64 (x : spec_float) : bool :=
  match x with
  | S754_zero _ => true
  | S754_infinity s => negb s
  | S754_nan => false
  | S754_finite s m e => negb s && bounded 53 1024 m e
  end.

(** The bits an integer number of units loses when rounded to 53 bits. *)
Definition lost (N : Z) : Z := Z.max (Zdigits2 N - 53) 0.

(** The units of the float nearest to [N] units (ties to even). *)
Definition round_units (N : Z) : Z :=
  Z.min (rnd N loc_Exact (lost N) * 2 ^ lost N) top.

(** The float of the literal 100. *)
Definition hundred : spec_float := S754_finite false 7036874417766400 (-46).

(** A share a record may hold: a binary64 value that is not below zero. *)
Definition share_ok (x : float) : bool :=
  valid_binary prec emax x && ge x (of_int 0).

End RoundingDefinitions.

(** A profile whose only hotspot cannot be parallelized. *)
Definition sequential_profile : string :=
  lines_text
    [ "Flat profile:";
      " time   seconds   seconds    calls  ms/call  ms/call  name";
      " 50.00      1.00     1.00        1     1.00     1.00  data_postprocessing" ].

(** A profile whose only hotspot has an infinite share. *)
Definition infinite_profile : string :=
  lines_text
    [ "Flat profile:";
      " time   seconds   seconds    calls  ms/call  ms/call  name";
      "   inf      1.00     1.00        1     1.00     1.00  matrix_multiply" ].

(** The hotspots [main] selects from a profile text, [[]] when there is no
    flat profile. *)
Definition hotspots_of (content : string) : list function_record :=
  match snd (parse_gprof_file (only_file content) "gmon.txt") with
  | Ok (Some functions) => analyze_hotspots functions (of_int 1)
  | _ => []
  end.

(** *** More of the script and of what is stated about it *)

(** A token of [str.split]: no white space in it. *)
Fixpoint no_space (t : string) : bool :=
  match t with
  | EmptyString => true
  | String c t' => negb (is_space c) && no_space t'
  end.




(** The hotspot list [main] computes at line 237. *)
Definition main_hotspots (functions : list function_record)
  : list function_record :=
  analyze_hotspots functions (of_int 1).


(** The text at which the flat profile ends: a newline, then "Call graph". *)
Definition call_graph_mark : string := String newline "Call graph".

(** Sample hotspot lists. *)
Definition sample_record (function_name : string) (share : Z)
  : function_record :=
  {| name := function_name; time_percent := of_int share;
     cumulative_seconds := of_int 1; self_seconds := of_int 1; calls := "1" |}.

(** The profile [sequential_profile] with blank lines and other margins. *)
Definition padded_sequential_profile : string :=
  lines_text
    [ "Flat profile:";
      "";
      "time   seconds   seconds    calls  ms/call  ms/call  name   ";
      "     ";
      "      50.00      1.00     1.00        1     1.00     1.00  data_postprocessing    ";
      "" ].

(** ** Facts about the string builtins *)

Section StrFacts.

Lemma startswith_app (s p : string) :
  startswith s p = true <-> exists q, s = p ++ q.
Proof.
  revert s; induction p as [|a p IH]; intros s; simpl.
  - split; [intros _; now exists s | reflexivity].
  - destruct s as [|b s].
    + split; [discriminate | intros [q Hq]; discriminate].
    + rewrite andb_true_iff, Ascii.eqb_eq, IH. split.
      * intros [-> [q ->]]. now exists q.
      * intros [q Hq]. injection Hq as -> ->. split; [reflexivity | now exists q].
Qed.

Lemma str_in_iff (k s : string) :
  str_in k s = true <-> exists p q, s = p ++ k ++ q.
Proof.
  induction s as [|c s IH].
  - simpl. rewrite orb_false_r, startswith_app. split.
    + intros [q Hq]. now exists "", q.
    + intros [p [q Hpq]]. destruct p; [now exists q | discriminate].
  - cbn [str_in]. rewrite orb_true_iff, startswith_app, IH. split.
    + intros [[q Hq] | [p [q Hpq]]].
      * now exists "", q.
      * exists (String c p), q. simpl. now rewrite Hpq.
    + intros [p [q Hpq]]. destruct p as [|d p].
      * left. now exists q.
      * right. simpl in Hpq. injection Hpq as _ ->. now exists p, q.
Qed.

Lemma append_assoc (a b c : string) : (a ++ b) ++ c = a ++ b ++ c.
Proof. induction a as [|x a IH]; simpl; [reflexivity | now rewrite IH]. Qed.

Lemma str_in_trans (a b c : string) :
  str_in a b = true -> str_in b c = true -> str_in a c = true.
Proof.
  rewrite !str_in_iff. intros [p [q ->]] [p' [q' ->]].
  exists (p' ++ p), (q ++ q'). now rewrite !append_assoc.
Qed.

Lemma str_in_absent (a b c : string) :
  str_in a b = true -> str_in a c = false -> str_in b c = false.
Proof.
  intros Hab Hac. destruct (str_in b c) eqn:Hbc; [|reflexivity].
  rewrite (str_in_trans a b c Hab Hbc) in Hac. discriminate.
Qed.

End StrFacts.

(** ** The order on floats *)

Section FloatOrder.

Lemma SFcompare_antisym (x y : spec_float) :
  SFcompare y x = option_map CompOpp (SFcompare x y).
Proof.
  destruct x as [sx|sx| |sx mx ex], y as [sy|sy| |sy my ey]; simpl;
    try reflexivity;
    repeat match goal with s : bool |- _ => destruct s end; simpl;
    try reflexivity.
  - rewrite (Z.compare_antisym ex ey).
    destruct (ex ?= ey)%Z; simpl; try reflexivity.
    change (Pos.compare_cont Eq my mx) with (Pos.compare my mx).
    change (Pos.compare_cont Eq mx my) with (Pos.compare mx my).
    rewrite (Pos.compare_antisym mx my). now rewrite CompOpp_involutive.
  - rewrite (Z.compare_antisym ex ey).
    destruct (ex ?= ey)%Z; simpl; try reflexivity.
    change (Pos.compare_cont Eq my mx) with (Pos.compare my mx).
    change (Pos.compare_cont Eq mx my) with (Pos.compare mx my).
    now rewrite (Pos.compare_antisym mx my).
Qed.

Ltac cmp_cases :=
  repeat match goal with
         | |- context [(?a ?= ?b)%Z] =>
             destruct (Z.compare_spec a b); subst
         | H : context [(?a ?= ?b)%Z] |- _ =>
             destruct (Z.compare_spec a b); subst
         | |- context [Pos.compare_cont Eq ?a ?b] =>
             change (Pos.compare_cont Eq a b) with (Pos.compare a b);
             destruct (Pos.compare_spec a b); subst
         | H : context [Pos.compare_cont Eq ?a ?b] |- _ =>
             change (Pos.compare_cont Eq a b) with (Pos.compare a b) in H;
             destruct (Pos.compare_spec a b); subst
         end.

Ltac by_float_cases x y z :=
  destruct x as [?s|?s| |?s ?m ?e], y as [?s|?s| |?s ?m ?e],
           z as [?s|?s| |?s ?m ?e]; simpl;
  repeat match goal with s : bool |- _ => destruct s end; simpl;
  try (intros; (reflexivity || discriminate));
  intros; cmp_cases; simpl in *;
  try reflexivity; try discriminate; try lia.

Lemma le_trans (x y z : float) :
  le x y = true -> le y z = true -> le x z = true.
Proof. unfold le, SFleb. by_float_cases x y z. Qed.

Lemma lt_le_trans (x y z : float) :
  lt x y = true -> le y z = true -> lt x z = true.
Proof. unfold lt, le, SFleb, SFltb. by_float_cases x y z. Qed.

Lemma le_lt_trans (x y z : float) :
  le x y = true -> lt y z = true -> lt x z = true.
Proof. unfold lt, le, SFleb, SFltb. by_float_cases x y z. Qed.

Lemma lt_le (x y : float) : lt x y = true -> le x y = true.
Proof.
  unfold lt, le, SFltb, SFleb. now destruct (SFcompare x y) as [[]|].
Qed.

Lemma le_not_gt (x y : float) : le x y = true -> gt x y = false.
Proof.
  unfold le, gt, SFleb, SFltb. rewrite (SFcompare_antisym x y).
  now destruct (SFcompare x y) as [[]|].
Qed.

Lemma compare_not_nan (x y : float) :
  is_nan x = false -> is_nan y = false -> exists c, SFcompare x y = Some c.
Proof.
  destruct x, y; simpl; try discriminate; intros _ _; eexists; reflexivity.
Qed.

Lemma not_lt_ge (x y : float) :
  is_nan x = false -> is_nan y = false -> lt x y = false -> ge x y = true.
Proof.
  intros Hx Hy. unfold lt, ge, SFltb, SFleb. rewrite (SFcompare_antisym x y).
  destruct (compare_not_nan x y Hx Hy) as [c ->]. now destruct c.
Qed.

Lemma eq_le_ge (x y : float) : eq x y = le x y && ge x y.
Proof.
  unfold eq, le, ge, SFeqb, SFleb. rewrite (SFcompare_antisym x y).
  now destruct (SFcompare x y) as [[]|].
Qed.

Lemma lt_not_eq (x y : float) : lt x y = true -> eq x y = false.
Proof.
  unfold lt, eq, SFltb, SFeqb. now destruct (SFcompare x y) as [[]|].
Qed.

Lemma gt_not_eq (x y : float) : gt x y = true -> eq x y = false.
Proof.
  unfold gt, eq, SFltb, SFeqb. rewrite (SFcompare_antisym x y).
  now destruct (SFcompare x y) as [[]|].
Qed.

End FloatOrder.

(** ** [sorted] with [reverse=True] *)

Section Sorting.

Context {A : Type} (key : A -> float).

Lemma insert_reverse_perm (x : A) (l : list A) :
  Permutation (insert_reverse key x l) (x :: l).
Proof.
  induction l as [|y l IH]; simpl; [reflexivity|].
  destruct (lt (key x) (key y)); [|reflexivity].
  rewrite IH. apply perm_swap.
Qed.

Lemma sorted_reverse_perm (l : list A) : Permutation (sorted_reverse key l) l.
Proof.
  induction l as [|x l IH]; simpl; [reflexivity|].
  rewrite insert_reverse_perm. now constructor.
Qed.

Lemma sorted_reverse_length (l : list A) :
  List.length (sorted_reverse key l) = List.length l.
Proof. apply Permutation_length, sorted_reverse_perm. Qed.

Lemma sorted_reverse_nil (l : list A) : sorted_reverse key l = [] <-> l = [].
Proof.
  split; [|now intros ->].
  intros H. apply length_zero_iff_nil.
  rewrite <- sorted_reverse_length, H. reflexivity.
Qed.

Let key_ge (a b : A) : Prop := ge (key a) (key b) = true.

Lemma insert_reverse_sorted (x : A) (l : list A) :
  is_nan (key x) = false ->
  Forall (fun y => is_nan (key y) = false) l ->
  StronglySorted key_ge l ->
  StronglySorted key_ge (insert_reverse key x l).
Proof.
  intros Hx Hl Hs. induction Hs as [|y l Hs IH Hy]; simpl.
  - repeat constructor.
  - inversion Hl as [|? ? Hny Hnl]; subst.
    destruct (lt (key x) (key y)) eqn:Hlt.
    + constructor; [now apply IH|].
      rewrite (insert_reverse_perm x l). constructor; [|exact Hy].
      unfold key_ge, ge. now apply lt_le.
    + assert (Hxy : key_ge x y) by (now apply not_lt_ge).
      constructor; [now constructor|].
      constructor; [exact Hxy|].
      eapply Forall_impl; [|exact Hy].
      intros z Hyz. unfold key_ge, ge in *.
      now apply (le_trans (key z) (key y) (key x)).
Qed.

Lemma sorted_reverse_sorted (l : list A) :
  Forall (fun y => is_nan (key y) = false) l ->
  StronglySorted key_ge (sorted_reverse key l).
Proof.
  induction l as [|x l IH]; simpl; intros Hl; [constructor|].
  inversion Hl as [|? ? Hx Hl']; subst.
  apply insert_reverse_sorted; [exact Hx | | now apply IH].
  now rewrite (sorted_reverse_perm l).
Qed.

Lemma eq_lt_not_eq (x y v : float) :
  eq x v = true -> lt x y = true -> eq y v = false.
Proof.
  unfold eq, lt, SFeqb, SFltb.
  destruct x as [?s|?s| |?s ?m ?e], y as [?s|?s| |?s ?m ?e],
           v as [?s|?s| |?s ?m ?e]; simpl;
  repeat match goal with s : bool |- _ => destruct s end; simpl;
  try (intros; (reflexivity || discriminate));
  intros;
  repeat match goal with
         | |- context [(?a ?= ?b)%Z] =>
             destruct (Z.compare_spec a b); subst
         | H : context [(?a ?= ?b)%Z] |- _ =>
             destruct (Z.compare_spec a b); subst
         | |- context [Pos.compare_cont Eq ?a ?b] =>
             change (Pos.compare_cont Eq a b) with (Pos.compare a b);
             destruct (Pos.compare_spec a b); subst
         | H : context [Pos.compare_cont Eq ?a ?b] |- _ =>
             change (Pos.compare_cont Eq a b) with (Pos.compare a b) in H;
             destruct (Pos.compare_spec a b); subst
         end; simpl in *;
  try reflexivity; try discriminate; try lia.
Qed.

(** Stability: the elements whose key compares equal to [v] keep their order. *)
Lemma insert_reverse_stable (v : float) (x : A) (l : list A) :
  filter (fun a => eq (key a) v) (insert_reverse key x l)
  = filter (fun a => eq (key a) v) (x :: l).
Proof.
  induction l as [|y l IH]; [reflexivity|].
  cbn [insert_reverse]. destruct (lt (key x) (key y)) eqn:Hlt; [|reflexivity].
  cbn [filter] in *. rewrite IH.
  destruct (eq (key x) v) eqn:Hx; [|reflexivity].
  now rewrite (eq_lt_not_eq _ _ _ Hx Hlt).
Qed.

Lemma sorted_reverse_stable (v : float) (l : list A) :
  filter (fun a => eq (key a) v) (sorted_reverse key l)
  = filter (fun a => eq (key a) v) l.
Proof.
  induction l as [|x l IH]; [reflexivity|].
  cbn [sorted_reverse fold_right]. rewrite insert_reverse_stable.
  cbn [filter]. fold (sorted_reverse key l). now rewrite IH.
Qed.

End Sorting.

(** ** Rounding in [SpecFloat], on integers *)

Section Rounding.

Local Open Scope Z_scope.

Lemma digits2_pos_size (p : positive) : digits2_pos p = Pos.size p.
Proof. induction p; simpl; congruence. Qed.

Lemma Zdigits2_log2 (m : Z) : 0 < m -> Zdigits2 m = Z.log2 m + 1.
Proof.
  destruct m as [|p|p]; try lia. intros _. simpl.
  rewrite digits2_pos_size. destruct p; simpl; lia.
Qed.

Lemma Zdigits2_bounds (m : Z) :
  0 < m -> 2 ^ (Zdigits2 m - 1) <= m < 2 ^ Zdigits2 m.
Proof.
  intros Hm. rewrite (Zdigits2_log2 m Hm).
  replace (Z.log2 m + 1 - 1) with (Z.log2 m) by lia.
  replace (Z.log2 m + 1) with (Z.succ (Z.log2 m)) by lia.
  now apply Z.log2_spec.
Qed.

Lemma Zdigits2_unique (m d : Z) :
  2 ^ (d - 1) <= m < 2 ^ d -> 0 < m -> Zdigits2 m = d.
Proof.
  intros H Hm. rewrite (Zdigits2_log2 m Hm).
  assert (0 <= d - 1).
  { destruct (Z.le_gt_cases 0 (d - 1)); [assumption|].
    assert (d <= 0) by lia.
    assert (2 ^ d <= 1).
    { destruct (Z.eq_dec d 0) as [->|]; [simpl; lia|].
      rewrite Z.pow_neg_r by lia. lia. }
    lia. }
  assert (Z.log2 m = d - 1); [|lia].
  apply Z.log2_unique; [assumption|].
  replace (Z.succ (d - 1)) with d by lia. assumption.
Qed.

Lemma Zdigits2_nonneg (m : Z) : 0 <= Zdigits2 m.
Proof. destruct m; simpl; lia. Qed.

Lemma Zdigits2_pos (m : Z) : 0 < m -> 0 < Zdigits2 m.
Proof. destruct m; simpl; lia. Qed.

Lemma Zdigits2_le (a b : Z) : 0 < a -> a <= b -> Zdigits2 a <= Zdigits2 b.
Proof.
  intros Ha Hab. rewrite !Zdigits2_log2 by lia.
  apply Z.add_le_mono_r. now apply Z.log2_le_mono.
Qed.

Lemma Zdigits2_lt_pow (m d : Z) : 0 <= d -> 0 <= m < 2 ^ d -> Zdigits2 m <= d.
Proof.
  intros Hd [H0 H]. destruct (Z.eq_dec m 0) as [->|Hne]; [simpl; lia|].
  rewrite Zdigits2_log2 by lia.
  assert (Z.log2 m < d) by (apply Z.log2_lt_pow2; lia). lia.
Qed.

(** shr_1 on non-negative mantissas *)
Lemma shr_1_spec (m : Z) (r s : bool) :
  0 <= m ->
  shr_1 {| shr_m := m; shr_r := r; shr_s := s |}
  = {| shr_m := m / 2; shr_r := Z.odd m; shr_s := r || s |}.
Proof.
  intros Hm. destruct m as [|p|p]; try lia.
  - reflexivity.
  - destruct p as [p|p|]; unfold shr_1.
    + rewrite Pos2Z.inj_xI. f_equal.
      replace (2 * Z.pos p + 1) with (1 + Z.pos p * 2) by lia.
      rewrite Z.div_add by lia. reflexivity.
    + rewrite Pos2Z.inj_xO. f_equal.
      replace (2 * Z.pos p) with (Z.pos p * 2) by lia.
      now rewrite Z.div_mul by lia.
    + reflexivity.
Qed.

Lemma iter_pos_nat {A : Type} (f : A -> A) (p : positive) (x : A) :
  iter_pos f p x = Nat.iter (Pos.to_nat p) f x.
Proof.
  revert x. induction p as [p IH|p IH|]; intros x; cbn [iter_pos].
  - rewrite !IH. rewrite Pos2Nat.inj_xI.
    replace (S (2 * Pos.to_nat p))%nat with (Pos.to_nat p + (Pos.to_nat p + 1))%nat by lia.
    rewrite !Nat.iter_add. reflexivity.
  - rewrite !IH. rewrite Pos2Nat.inj_xO.
    replace (2 * Pos.to_nat p)%nat with (Pos.to_nat p + Pos.to_nat p)%nat by lia.
    now rewrite Nat.iter_add.
  - reflexivity.
Qed.

Lemma shr_iter (k : nat) (m : Z) (r s : bool) :
  0 <= m ->
  Nat.iter (S k) shr_1 {| shr_m := m; shr_r := r; shr_s := s |}
  = {| shr_m := m / 2 ^ Z.of_nat (S k);
       shr_r := Z.odd (m / 2 ^ Z.of_nat k);
       shr_s := r || s || negb (m mod 2 ^ Z.of_nat k =? 0) |}.
Proof.
  intros Hm. induction k as [|k IH].
  - change (Nat.iter 1 shr_1 ?x) with (shr_1 x). rewrite shr_1_spec by assumption.
    change (2 ^ Z.of_nat 1) with 2. change (2 ^ Z.of_nat 0) with 1.
    rewrite Z.div_1_r, Z.mod_1_r. simpl. now rewrite orb_false_r.
  - change (Nat.iter (S (S k)) shr_1 ?x) with (shr_1 (Nat.iter (S k) shr_1 x)).
    rewrite IH. rewrite shr_1_spec by (apply Z.div_pos; lia).
    assert (Hk : 2 ^ Z.of_nat (S k) = 2 ^ Z.of_nat k * 2)
      by (rewrite Nat2Z.inj_succ, Z.pow_succ_r; lia).
    assert (Hk2 : 2 ^ Z.of_nat (S (S k)) = 2 ^ Z.of_nat (S k) * 2)
      by (rewrite (Nat2Z.inj_succ (S k)), Z.pow_succ_r; lia).
    assert (Hp : 0 < 2 ^ Z.of_nat k) by (apply Z.pow_pos_nonneg; lia).
    f_equal.
    + rewrite Hk2. rewrite Z.div_div by lia. reflexivity.
    + (* the sticky bit *)
      rewrite Hk.
      rewrite Z.rem_mul_r by lia.
      set (q := m / 2 ^ Z.of_nat k). set (lo := m mod 2 ^ Z.of_nat k).
      assert (Hlo : 0 <= lo < 2 ^ Z.of_nat k) by (apply Z.mod_pos_bound; lia).
      assert (Hq2 : 0 <= q mod 2 < 2) by (apply Z.mod_pos_bound; lia).
      rewrite (Zodd_mod q).
      destruct (Z.eqb_spec (q mod 2) 1) as [H1|H1];
        destruct (Z.eqb_spec lo 0) as [H0|H0]; simpl;
        destruct r, s; simpl; try reflexivity;
        symmetry; try (apply negb_true_iff, Z.eqb_neq; nia);
        try (apply negb_false_iff, Z.eqb_eq; nia).
Qed.

Lemma fexp_eq (x : Z) : fexp 53 1024 x = Z.max (x - 53) (-1074).
Proof. reflexivity. Qed.

Lemma shr_spec (m : Z) (l : location) (e n : Z) :
  0 <= m ->
  shr (shr_record_of_loc m l) e n
  = if 0 <? n
    then ({| shr_m := m / 2 ^ n;
             shr_r := Z.odd (m / 2 ^ (n - 1));
             shr_s := loc_r l || loc_s l || negb (m mod 2 ^ (n - 1) =? 0) |},
          e + n)
    else (shr_record_of_loc m l, e).
Proof.
  intros Hm. unfold shr. destruct n as [|p|p]; try reflexivity.
  change (0 <? Z.pos p) with true. cbv iota.
  rewrite iter_pos_nat.
  destruct (Pos.to_nat p) as [|k] eqn:Hk; [lia|].
  assert (Hp : Z.pos p = Z.of_nat (S k)) by lia.
  assert (Hp1 : Z.pos p - 1 = Z.of_nat k) by lia.
  rewrite Hp1, Hp.
  replace (shr_record_of_loc m l)
    with {| shr_m := m; shr_r := loc_r l; shr_s := loc_s l |}
    by (destruct l as [|[]]; reflexivity).
  now rewrite shr_iter.
Qed.

Lemma round_nearest_even_bounds (m : Z) (l : location) :
  m <= round_nearest_even m l <= m + 1.
Proof.
  unfold round_nearest_even. destruct l as [|[]]; try lia.
  destruct (Z.even m); lia.
Qed.

Lemma rnd_bounds (m : Z) (l : location) (n : Z) :
  0 <= n -> m / 2 ^ n <= rnd m l n <= m / 2 ^ n + 1.
Proof.
  intros Hn. unfold rnd. destruct (Z.leb_spec n 0).
  - replace n with 0 by lia. rewrite Z.div_1_r.
    apply round_nearest_even_bounds.
  - apply round_nearest_even_bounds.
Qed.

Lemma loc_of_exact (r s : bool) : loc_of r s = loc_Exact -> r = false /\ s = false.
Proof. destruct r, s; simpl; intros; try discriminate; auto. Qed.

Lemma rnd_exact (m n : Z) :
  0 <= m -> 0 <= n -> m mod 2 ^ n = 0 -> rnd m loc_Exact n = m / 2 ^ n.
Proof.
  intros Hm Hn Hmod. unfold rnd. destruct (Z.leb_spec n 0).
  - replace n with 0 by lia. now rewrite Z.div_1_r.
  - assert (Hp : 2 ^ n = 2 ^ (n - 1) * 2).
    { replace n with (Z.succ (n - 1)) at 1 by lia.
      rewrite Z.pow_succ_r; lia. }
    assert (Hpos : 0 < 2 ^ (n - 1)) by (apply Z.pow_pos_nonneg; lia).
    rewrite Hp in Hmod. rewrite Z.rem_mul_r in Hmod by lia.
    assert (0 <= m mod 2 ^ (n - 1) < 2 ^ (n - 1)) by (apply Z.mod_pos_bound; lia).
    assert (0 <= (m / 2 ^ (n - 1)) mod 2 < 2) by (apply Z.mod_pos_bound; lia).
    assert (Hlo : m mod 2 ^ (n - 1) = 0) by nia.
    assert (Hhi : (m / 2 ^ (n - 1)) mod 2 = 0) by nia.
    rewrite Hlo. rewrite Zodd_mod, Hhi. reflexivity.
Qed.

Lemma div_pow_lt (m n k : Z) :
  0 <= n -> 0 <= k -> 0 <= m < 2 ^ (n + k) -> m / 2 ^ n < 2 ^ k.
Proof.
  intros Hn Hk [H0 H]. apply Z.div_lt_upper_bound.
  - apply Z.pow_pos_nonneg; lia.
  - now rewrite <- Z.pow_add_r by lia.
Qed.

Lemma div_pow_ge (m n k : Z) :
  0 <= n -> 0 <= k -> 2 ^ (n + k) <= m -> 2 ^ k <= m / 2 ^ n.
Proof.
  intros Hn Hk H. apply Z.div_le_lower_bound.
  - apply Z.pow_pos_nonneg; lia.
  - now rewrite <- Z.pow_add_r by lia.
Qed.

(** With the shift that [fexp] asks for, the rounded mantissa fits. *)
Lemma rnd_fits (m : Z) (l : location) (e : Z) :
  0 <= m ->
  let n := fexp 53 1024 (Zdigits2 m + e) - e in
  0 <= n -> 0 <= rnd m l n <= 2 ^ 53.
Proof.
  intros Hm n Hn.
  assert (Hb := rnd_bounds m l n Hn).
  assert (0 <= m / 2 ^ n) by (apply Z.div_pos; [lia | apply Z.pow_pos_nonneg; lia]).
  split; [lia|].
  assert (m / 2 ^ n < 2 ^ 53); [|lia].
  destruct (Z.eq_dec m 0) as [->|Hne].
  { rewrite Z.div_0_l by (apply Z.pow_nonzero; lia). reflexivity. }
  apply div_pow_lt; try lia.
  split; [lia|].
  assert (Hd := Zdigits2_bounds m ltac:(lia)).
  eapply Z.lt_le_trans; [apply Hd|].
  apply Z.pow_le_mono_r; [lia|].
  subst n. rewrite fexp_eq in *. lia.
Qed.

(** In the normal range the rounded mantissa has 53 bits at least. *)
Lemma rnd_normal (m : Z) (l : location) (e : Z) :
  0 < m ->
  let n := fexp 53 1024 (Zdigits2 m + e) - e in
  0 <= n -> -1074 < e + n -> 2 ^ 52 <= rnd m l n.
Proof.
  intros Hm n Hn Hc.
  assert (Hb := rnd_bounds m l n Hn).
  assert (2 ^ 52 <= m / 2 ^ n); [|lia].
  apply div_pow_ge; try lia.
  assert (Hd := Zdigits2_bounds m Hm).
  eapply Z.le_trans; [|apply Hd].
  apply Z.pow_le_mono_r; [lia|].
  subst n. rewrite fexp_eq in *. lia.
Qed.

Lemma finalize (m1 c : Z) :
  0 <= m1 <= 2 ^ 53 -> -1074 <= c ->
  (let '(mrs, e) := shr_fexp 53 1024 m1 c loc_Exact in
   match shr_m mrs with
   | 0 => S754_zero false
   | Z.pos m => if e <=? 1024 - 53 then S754_finite false m e
                else S754_infinity false
   | Z.neg _ => S754_nan
   end) = pack m1 c.
Proof.
  intros Hm Hc. unfold shr_fexp, pack.
  destruct (Z.eqb_spec m1 0) as [->|Hne].
  - simpl Zdigits2. rewrite shr_spec by lia.
    rewrite fexp_eq.
    destruct (Z.ltb_spec 0 (Z.max (0 + c - 53) (-1074) - c)); [lia|]. reflexivity.
  - destruct (Z.ltb_spec m1 (2 ^ 53)) as [Hlt|Hge].
    + assert (Hd : Zdigits2 m1 <= 53) by (apply Zdigits2_lt_pow; lia).
      rewrite shr_spec by lia. rewrite fexp_eq.
      destruct (Z.ltb_spec 0 (Z.max (Zdigits2 m1 + c - 53) (-1074) - c)); [lia|].
      cbn [shr_record_of_loc shr_m]. unfold fin_or_inf.
      destruct m1 as [|p|p]; try lia. reflexivity.
    + assert (m1 = 2 ^ 53) by lia. subst m1.
      change (Zdigits2 (2 ^ 53)) with 54.
      rewrite shr_spec by lia. rewrite fexp_eq.
      replace (Z.max (54 + c - 53) (-1074) - c) with 1 by lia.
      change (0 <? 1) with true. cbv iota. cbn [shr_m].
      change (2 ^ 53 / 2 ^ 1) with (Z.pos 4503599627370496).
      unfold fin_or_inf. change (1024 - 53) with 971. reflexivity.
Qed.

Theorem binary_round_aux_spec (m : Z) (l : location) (e : Z) :
  0 <= m ->
  let n := fexp 53 1024 (Zdigits2 m + e) - e in
  0 <= n ->
  binary_round_aux 53 1024 false m e l = pack (rnd m l n) (e + n).
Proof.
  intros Hm n Hn. unfold binary_round_aux.
  assert (Hfit := rnd_fits m l e Hm Hn). fold n in Hfit.
  assert (Hc : -1074 <= e + n) by (subst n; rewrite fexp_eq; lia).
  unfold shr_fexp at 1. fold n. rewrite shr_spec by assumption.
  destruct (Z.ltb_spec 0 n) as [Hpos|Hzero].
  - cbn [shr_m].
    replace (round_nearest_even _ _) with (rnd m l n).
    + now apply finalize.
    + unfold rnd. destruct (Z.leb_spec n 0); [lia|]. reflexivity.
  - assert (n = 0) by lia.
    replace (round_nearest_even _ _) with (rnd m l n).
    + replace e with (e + n) at 1 by lia. now apply finalize.
    + unfold rnd. destruct (Z.leb_spec n 0); [|lia].
      destruct l as [|[]]; reflexivity.
Qed.

Lemma pow2_pos (k : Z) : 0 <= k -> 0 < 2 ^ k.
Proof. intros. apply Z.pow_pos_nonneg; lia. Qed.

Lemma pow2_split (a b : Z) : 0 <= a -> 0 <= b -> 2 ^ (a + b) = 2 ^ a * 2 ^ b.
Proof. intros. now apply Z.pow_add_r. Qed.

Lemma pow2_le (a b : Z) : 0 <= a <= b -> 2 ^ a <= 2 ^ b.
Proof. intros. apply Z.pow_le_mono_r; lia. Qed.

Lemma pow2_lt (a b : Z) : 0 <= a < b -> 2 ^ a < 2 ^ b.
Proof. intros. apply Z.pow_lt_mono_r; lia. Qed.

Lemma bounded_facts (m : positive) (e : Z) :
  bounded 53 1024 m e = true ->
  -1074 <= e <= 971
  /\ Z.pos m < 2 ^ 53
  /\ (-1074 < e -> 2 ^ 52 <= Z.pos m)
  /\ Zdigits2 (Z.pos m) <= 53
  /\ fexp 53 1024 (Zdigits2 (Z.pos m) + e) = e.
Proof.
  unfold bounded, canonical_mantissa. rewrite andb_true_iff.
  intros [Hc He]. apply Z.eqb_eq in Hc. apply Z.leb_le in He.
  change (1024 - 53) with 971 in He.
  change (Z.pos (digits2_pos m)) with (Zdigits2 (Z.pos m)) in Hc.
  rewrite fexp_eq in Hc.
  assert (Hd := Zdigits2_bounds (Z.pos m) ltac:(lia)).
  assert (Hdp := Zdigits2_pos (Z.pos m) ltac:(lia)).
  assert (Hd53 : Zdigits2 (Z.pos m) <= 53) by lia.
  repeat split; try lia.
  - eapply Z.lt_le_trans; [apply Hd|]. apply pow2_le; lia.
  - intros Hn. assert (Zdigits2 (Z.pos m) = 53) by lia.
    replace 52 with (Zdigits2 (Z.pos m) - 1) by lia. apply Hd.
  - rewrite fexp_eq. lia.
Qed.

Lemma units_finite_lt_top (m : positive) (e : Z) :
  bounded 53 1024 m e = true -> 0 < Z.pos m * 2 ^ (e + 1074) < top.
Proof.
  intros Hb. destruct (bounded_facts m e Hb) as (He & Hm & _).
  assert (Hp := pow2_pos (e + 1074) ltac:(lia)).
  split; [lia|].
  assert (2 ^ (e + 1074) <= 2 ^ 2045) by (apply pow2_le; lia).
  unfold top. change 2098 with (53 + 2045).
  rewrite (pow2_split 53 2045) by lia.
  assert (0 < 2 ^ 53) by (apply pow2_pos; lia).
  nia.
Qed.

Lemma units_nonneg (x : spec_float) : 0 <= units x.
Proof.
  destruct x as [s|s| |s m e]; cbn [units]; try lia;
    try (unfold top; apply Z.pow_nonneg; lia);
    try (apply Z.mul_nonneg_nonneg; [lia | apply Z.pow_nonneg; lia]).
Qed.

Lemma scale_lt (m1 m2 B P Q : Z) :
  0 < P -> 2 <= Q -> 0 < B -> m1 < 2 * B -> B <= m2 ->
  m1 * P < m2 * (P * Q).
Proof.
  intros HP HQ HB H1 H2.
  assert (m1 * P < 2 * B * P) by nia.
  assert (2 * B * P <= B * Q * P) by nia.
  assert (B * Q * P <= m2 * Q * P) by nia.
  lia.
Qed.

(** On such values the comparison of floats is the comparison of units. *)
Theorem leb_units (x y : spec_float) :
  nonneg64 x = true -> nonneg64 y = true ->
  SFleb x y = (units x <=? units y).
Proof.
  unfold SFleb.
  destruct x as [sx|sx| |sx mx ex], y as [sy|sy| |sy my ey];
    cbn [units nonneg64 SFcompare]; try discriminate;
    repeat match goal with
           | |- context [negb ?s] =>
               destruct s; cbn [negb andb]; try discriminate
           end; intros Hx Hy; try reflexivity;
    try (assert (Hux := units_finite_lt_top _ _ Hx));
    try (assert (Huy := units_finite_lt_top _ _ Hy));
    try (symmetry; apply Z.leb_le; unfold top in *; lia);
    try (symmetry; apply Z.leb_gt; unfold top in *; lia).
  clear Hux Huy.
  destruct (bounded_facts _ _ Hx) as (Hex & Hmx & Hnx & _).
  destruct (bounded_facts _ _ Hy) as (Hey & Hmy & Hny & _).
  change (Pos.compare_cont Eq mx my) with (Pos.compare mx my).
  assert (HB : 0 < 2 ^ 52) by reflexivity.
  change (2 ^ 53) with (2 * 2 ^ 52) in *.
  destruct (Z.compare_spec ex ey) as [Heq|Hlt|Hgt].
  - subst ey. assert (Hp := pow2_pos (ex + 1074) ltac:(lia)).
    destruct (Pos.compare_spec mx my) as [Hm|Hm|Hm]; symmetry.
    + apply Z.leb_le. subst. lia.
    + apply Z.leb_le. apply Z.mul_le_mono_nonneg_r; lia.
    + apply Z.leb_gt. apply Z.mul_lt_mono_pos_r; lia.
  - symmetry. apply Z.leb_le.
    replace (ey + 1074) with ((ex + 1074) + (ey - ex)) by lia.
    rewrite (pow2_split (ex + 1074) (ey - ex)) by lia.
    apply Z.lt_le_incl.
    apply (scale_lt _ _ (2 ^ 52)); try lia;
      try (apply pow2_pos; lia);
      try (change 2 with (2 ^ 1) at 1; apply pow2_le; lia).
  - symmetry. apply Z.leb_gt.
    replace (ex + 1074) with ((ey + 1074) + (ex - ey)) by lia.
    rewrite (pow2_split (ey + 1074) (ex - ey)) by lia.
    apply (scale_lt _ _ (2 ^ 52)); try lia;
      try (apply pow2_pos; lia);
      try (change 2 with (2 ^ 1) at 1; apply pow2_le; lia).
Qed.

Lemma nonneg64_pack (m1 c : Z) :
  0 <= m1 <= 2 ^ 53 -> -1074 <= c -> (c = -1074 \/ 2 ^ 52 <= m1) ->
  nonneg64 (pack m1 c) = true.
Proof.
  intros Hm Hc Hn. unfold pack.
  destruct (Z.eqb_spec m1 0); [reflexivity|].
  destruct (Z.ltb_spec m1 (2 ^ 53)) as [Hlt|Hge]; unfold fin_or_inf.
  - destruct (Z.leb_spec c 971); [|reflexivity].
    cbn [nonneg64 negb andb]. unfold bounded, canonical_mantissa.
    apply andb_true_iff. split; [|apply Z.leb_le; lia].
    apply Z.eqb_eq.
    change (Z.pos (digits2_pos (Z.to_pos m1))) with (Zdigits2 (Z.pos (Z.to_pos m1))).
    rewrite Z2Pos.id by lia. rewrite fexp_eq.
    assert (Hd : Zdigits2 m1 <= 53) by (apply Zdigits2_lt_pow; lia).
    destruct Hn as [->|Hn]; [lia|].
    assert (Zdigits2 m1 = 53) by (apply Zdigits2_unique; lia). lia.
  - destruct (Z.leb_spec (c + 1) 971); [|reflexivity].
    cbn [nonneg64 negb andb]. unfold bounded, canonical_mantissa.
    apply andb_true_iff. split; [|apply Z.leb_le; lia].
    apply Z.eqb_eq. change (Z.pos (digits2_pos (Z.to_pos (2 ^ 52)))) with 53.
    rewrite fexp_eq. lia.
Qed.

Lemma units_pack (m1 c : Z) :
  0 <= m1 <= 2 ^ 53 -> -1074 <= c -> (c = -1074 \/ 2 ^ 52 <= m1) ->
  units (pack m1 c) = Z.min (m1 * 2 ^ (c + 1074)) top.
Proof.
  intros Hm Hc Hn. unfold pack.
  assert (Hp := pow2_pos (c + 1074) ltac:(lia)).
  assert (Htop : top = 2 ^ 53 * 2 ^ 2045)
    by (unfold top; rewrite <- pow2_split by lia; reflexivity).
  assert (H53 : 0 < 2 ^ 53) by (apply pow2_pos; lia).
  destruct (Z.eqb_spec m1 0) as [->|Hne].
  { cbn [units]. rewrite Z.mul_0_l, Z.min_l; [reflexivity|].
    unfold top. apply Z.pow_nonneg; lia. }
  destruct (Z.ltb_spec m1 (2 ^ 53)) as [Hlt|Hge]; unfold fin_or_inf.
  - destruct (Z.leb_spec c 971) as [Hle|Hgt]; cbn [units].
    + rewrite Z2Pos.id by lia.
      assert (2 ^ (c + 1074) <= 2 ^ 2045) by (apply pow2_le; lia).
      rewrite Z.min_l; [reflexivity|]. nia.
    + destruct Hn as [->|Hn]; [lia|].
      assert (2 ^ 2046 <= 2 ^ (c + 1074)) by (apply pow2_le; lia).
      change (2 ^ 2046) with (2 * 2 ^ 2045) in *.
      change (2 ^ 53) with (2 * 2 ^ 52) in *.
      rewrite Z.min_r; [reflexivity|].
      assert (0 < 2 ^ 2045) by (apply pow2_pos; lia).
      assert (0 < 2 ^ 52) by (apply pow2_pos; lia). nia.
  - assert (m1 = 2 ^ 53) by lia. subst m1.
    destruct (Z.leb_spec (c + 1) 971) as [Hle|Hgt]; cbn [units].
    + change (Z.pos (Z.to_pos (2 ^ 52))) with (2 ^ 52).
      replace (c + 1 + 1074) with (1 + (c + 1074)) by lia.
      rewrite (pow2_split 1 (c + 1074)) by lia. change (2 ^ 1) with 2.
      change (2 ^ 53) with (2 * 2 ^ 52) in *.
      assert (2 ^ (c + 1074) <= 2 ^ 2044) by (apply pow2_le; lia).
      assert (2 ^ 2045 = 2 * 2 ^ 2044) by (change 2045 with (1 + 2044); rewrite pow2_split by lia; reflexivity).
      assert (0 < 2 ^ 52) by (apply pow2_pos; lia).
      rewrite Z.min_l; nia.
    + assert (2 ^ 2045 <= 2 ^ (c + 1074)) by (apply pow2_le; lia).
      rewrite Z.min_r; [reflexivity|]. nia.
Qed.

Lemma Zdigits2_shift (M k : Z) :
  0 < M -> 0 <= k -> Zdigits2 (M * 2 ^ k) = Zdigits2 M + k.
Proof.
  intros HM Hk. assert (Hp := pow2_pos k Hk).
  assert (Hd := Zdigits2_bounds M HM). assert (Hdp := Zdigits2_pos M HM).
  apply Zdigits2_unique; [|nia].
  replace (Zdigits2 M + k - 1) with ((Zdigits2 M - 1) + k) by lia.
  rewrite !pow2_split by lia. nia.
Qed.

Lemma rnd_arith (N n : Z) :
  0 <= N -> 0 < n ->
  rnd N loc_Exact n
  = let q := N / 2 ^ n in
    let r := N mod 2 ^ n in
    let h := 2 ^ (n - 1) in
    if r <? h then q
    else if r =? h then (if Z.even q then q else q + 1)
         else q + 1.
Proof.
  intros HN Hn. unfold rnd. destruct (Z.leb_spec n 0); [lia|].
  cbv zeta.
  assert (Hh : 0 < 2 ^ (n - 1)) by (apply pow2_pos; lia).
  assert (Hp : 2 ^ n = 2 ^ (n - 1) * 2).
  { replace n with ((n - 1) + 1) at 1 by lia.
    rewrite (pow2_split (n - 1) 1) by lia. reflexivity. }
  assert (Hr : N mod 2 ^ n
               = N mod 2 ^ (n - 1) + 2 ^ (n - 1) * ((N / 2 ^ (n - 1)) mod 2))
    by (rewrite Hp, Z.rem_mul_r by lia; reflexivity).
  assert (Hq : N / 2 ^ (n - 1) / 2 = N / 2 ^ n)
    by (rewrite Hp, Z.div_div by lia; reflexivity).
  assert (Hlo : 0 <= N mod 2 ^ (n - 1) < 2 ^ (n - 1))
    by (apply Z.mod_pos_bound; lia).
  assert (Ht : 0 <= (N / 2 ^ (n - 1)) mod 2 < 2)
    by (apply Z.mod_pos_bound; lia).
  rewrite (Zodd_mod (N / 2 ^ (n - 1))).
  cbn [loc_r loc_s shr_record_of_loc shr_r shr_s orb].
  rewrite Hr. clear Hr Hq Hp.
  set (h := 2 ^ (n - 1)) in *. set (lo := N mod h) in *.
  set (b := (N / h) mod 2) in *. set (q := N / 2 ^ n).
  clearbody h lo b q.
  destruct (Z.eqb_spec b 1) as [H1|H1];
    destruct (Z.eqb_spec lo 0) as [H0|H0];
    cbn [negb loc_of loc_of_shr_record round_nearest_even];
    destruct (Z.ltb_spec (lo + h * b) h); try nia; try reflexivity;
    destruct (Z.eqb_spec (lo + h * b) h); try nia; reflexivity.
Qed.

Lemma rnd_zero_shift (N : Z) : rnd N loc_Exact 0 = N.
Proof. reflexivity. Qed.

Lemma rnd_scale (M n j : Z) :
  0 <= M -> 0 <= n -> 0 <= j ->
  rnd (M * 2 ^ j) loc_Exact (n + j) = rnd M loc_Exact n.
Proof.
  intros HM Hn Hj. assert (Hpj := pow2_pos j Hj).
  destruct (Z.eq_dec n 0) as [->|Hn0].
  - rewrite rnd_zero_shift. rewrite rnd_exact; try lia.
    + now rewrite Z.div_mul by lia.
    + apply Z.mod_mul. lia.
  - assert (Hpn := pow2_pos n Hn).
    assert (Hh := pow2_pos (n - 1) ltac:(lia)).
    rewrite !rnd_arith by lia. cbv zeta.
    rewrite (pow2_split n j) by lia.
    replace (n + j - 1) with ((n - 1) + j) by lia.
    rewrite (pow2_split (n - 1) j) by lia.
    rewrite Z.div_mul_cancel_r by lia.
    rewrite Z.mul_mod_distr_r by lia.
    set (r := M mod 2 ^ n). set (h := 2 ^ (n - 1)) in *.
    destruct (Z.ltb_spec (r * 2 ^ j) (h * 2 ^ j));
      destruct (Z.ltb_spec r h); try nia; try reflexivity.
    destruct (Z.eqb_spec (r * 2 ^ j) (h * 2 ^ j));
      destruct (Z.eqb_spec r h); try nia; reflexivity.
Qed.

Lemma rnd_mono (N1 N2 n : Z) :
  0 <= N1 <= N2 -> 0 <= n -> rnd N1 loc_Exact n <= rnd N2 loc_Exact n.
Proof.
  intros HN Hn. destruct (Z.eq_dec n 0) as [->|Hn0].
  - rewrite !rnd_zero_shift. lia.
  - assert (Hp := pow2_pos n Hn).
    assert (Hq : N1 / 2 ^ n <= N2 / 2 ^ n) by (apply Z.div_le_mono; lia).
    assert (Hb1 := rnd_bounds N1 loc_Exact n Hn).
    assert (Hb2 := rnd_bounds N2 loc_Exact n Hn).
    destruct (Z.eq_dec (N1 / 2 ^ n) (N2 / 2 ^ n)) as [Heq|Hne]; [|lia].
    assert (Hr : N1 mod 2 ^ n <= N2 mod 2 ^ n).
    { rewrite (Z.div_mod N1 (2 ^ n)), (Z.div_mod N2 (2 ^ n)) in HN by lia.
      rewrite Heq in HN. lia. }
    clear Hb1 Hb2. rewrite !rnd_arith by lia. cbv zeta. rewrite Heq.
    set (q := N2 / 2 ^ n). set (r1 := N1 mod 2 ^ n) in *.
    set (r2 := N2 mod 2 ^ n) in *. set (h := 2 ^ (n - 1)).
    destruct (Z.ltb_spec r1 h), (Z.ltb_spec r2 h); try lia;
      destruct (Z.eqb_spec r1 h), (Z.eqb_spec r2 h); try lia;
      destruct (Z.even q); lia.
Qed.

Lemma lost_nonneg (N : Z) : 0 <= lost N.
Proof. unfold lost. lia. Qed.

Lemma lost_le_digits (N : Z) : lost N <= Zdigits2 N.
Proof. unfold lost. assert (H := Zdigits2_nonneg N). lia. Qed.

Lemma round_units_mono (N1 N2 : Z) :
  0 < N1 <= N2 -> round_units N1 <= round_units N2.
Proof.
  intros HN. unfold round_units. apply Z.min_le_compat_r.
  assert (Hd : Zdigits2 N1 <= Zdigits2 N2) by (apply Zdigits2_le; lia).
  assert (Hl : lost N1 <= lost N2) by (unfold lost; lia).
  assert (H1 := lost_nonneg N1).
  destruct (Z.eq_dec (lost N1) (lost N2)) as [Heq|Hne].
  - rewrite <- Heq. apply Z.mul_le_mono_nonneg_r.
    + apply Z.lt_le_incl, pow2_pos; lia.
    + apply rnd_mono; lia.
  - assert (Hlt : lost N1 < lost N2) by lia.
    assert (Hd2 : Zdigits2 N2 = lost N2 + 53) by (unfold lost in *; lia).
    assert (Hd1 : Zdigits2 N1 < Zdigits2 N2) by (unfold lost in *; lia).
    assert (Hb1 := Zdigits2_bounds N1 ltac:(lia)).
    assert (Hb2 := Zdigits2_bounds N2 ltac:(lia)).
    assert (Hdp := Zdigits2_pos N1 ltac:(lia)).
    assert (Hle := lost_le_digits N1).
    apply Z.le_trans with (2 ^ Zdigits2 N1).
    + assert (Hr := rnd_bounds N1 loc_Exact (lost N1) H1).
      assert (Hq : N1 / 2 ^ lost N1 < 2 ^ (Zdigits2 N1 - lost N1)).
      { apply div_pow_lt; try lia.
        replace (lost N1 + (Zdigits2 N1 - lost N1)) with (Zdigits2 N1) by lia. lia. }
      assert (Hs : 2 ^ Zdigits2 N1
                   = 2 ^ (Zdigits2 N1 - lost N1) * 2 ^ lost N1)
        by (rewrite <- pow2_split by lia; f_equal; lia).
      rewrite Hs.
      apply Z.mul_le_mono_nonneg_r; [apply Z.lt_le_incl, pow2_pos; lia | lia].
    + apply Z.le_trans with (2 ^ (Zdigits2 N2 - 1)); [apply pow2_le; lia|].
      assert (Hr := rnd_bounds N2 loc_Exact (lost N2) (lost_nonneg N2)).
      assert (Hq : 2 ^ 52 <= N2 / 2 ^ lost N2).
      { apply div_pow_ge; try lia.
        replace (lost N2 + 52) with (Zdigits2 N2 - 1) by lia. lia. }
      assert (Hs : 2 ^ (Zdigits2 N2 - 1) = 2 ^ 52 * 2 ^ lost N2)
        by (rewrite <- pow2_split by lia; f_equal; lia).
      rewrite Hs.
      apply Z.mul_le_mono_nonneg_r; [apply Z.lt_le_incl, pow2_pos; lia | lia].
Qed.

(** A float is the nearest float to its own value. *)
Lemma round_units_id (m : positive) (e : Z) :
  bounded 53 1024 m e = true ->
  round_units (Z.pos m * 2 ^ (e + 1074)) = Z.pos m * 2 ^ (e + 1074).
Proof.
  intros Hb. destruct (bounded_facts m e Hb) as (He & Hm & Hn & Hd & Hc).
  assert (Htop := units_finite_lt_top m e Hb).
  unfold round_units, lost.
  rewrite Zdigits2_shift by lia.
  rewrite fexp_eq in Hc.
  replace (Z.max (Zdigits2 (Z.pos m) + (e + 1074) - 53) 0) with (e + 1074) by lia.
  rewrite rnd_exact; try lia.
  - rewrite Z.div_mul by (apply Z.pow_nonzero; lia). lia.
  - apply Z.mod_mul. apply Z.pow_nonzero; lia.
Qed.

(** [binary_round_aux] on an exact mantissa rounds its value in units. *)
Theorem round_exact_spec (M e N : Z) :
  0 < M -> 0 < N ->
  (0 <= e + 1074 -> N = M * 2 ^ (e + 1074)) ->
  (e + 1074 < 0 -> M = N * 2 ^ (- (e + 1074))) ->
  0 <= fexp 53 1024 (Zdigits2 M + e) - e ->
  units (binary_round_aux 53 1024 false M e loc_Exact) = round_units N
  /\ nonneg64 (binary_round_aux 53 1024 false M e loc_Exact) = true.
Proof.
  intros HM HN Hk1 Hk2 Hn.
  rewrite binary_round_aux_spec by lia.
  set (n := fexp 53 1024 (Zdigits2 M + e) - e) in *.
  assert (Hfit := rnd_fits M loc_Exact e ltac:(lia) Hn). fold n in Hfit.
  assert (Hc : -1074 <= e + n) by (subst n; rewrite fexp_eq; lia).
  assert (Hnorm : e + n = -1074 \/ 2 ^ 52 <= rnd M loc_Exact n).
  { destruct (Z.eq_dec (e + n) (-1074)); [now left | right].
    apply rnd_normal; try lia; fold n; lia. }
  split; [|now apply nonneg64_pack].
  rewrite units_pack by assumption. unfold round_units.
  assert (Hdig : Zdigits2 N = Zdigits2 M + (e + 1074)).
  { destruct (Z.le_gt_cases 0 (e + 1074)) as [Hk|Hk].
    - rewrite (Hk1 Hk). apply Zdigits2_shift; lia.
    - rewrite (Hk2 Hk). rewrite Zdigits2_shift by lia. lia. }
  assert (Hlost : lost N = e + n + 1074).
  { unfold lost. rewrite Hdig. subst n. rewrite fexp_eq. lia. }
  rewrite Hlost. f_equal. f_equal.
  destruct (Z.le_gt_cases 0 (e + 1074)) as [Hk|Hk].
  - rewrite (Hk1 Hk).
    replace (e + n + 1074) with (n + (e + 1074)) by lia.
    now rewrite rnd_scale by lia.
  - rewrite (Hk2 Hk) at 1.
    replace n with ((e + n + 1074) + (- (e + 1074))) at 1 by lia.
    now rewrite rnd_scale by lia.
Qed.

Lemma iter_xO_pow (m d : positive) :
  Z.pos (Pos.iter xO m d) = Z.pos m * 2 ^ Z.pos d.
Proof.
  change (Pos.iter xO m d) with (shift_pos d m).
  rewrite shift_pos_correct. rewrite Zpower_pos_nat, Zpower_nat_Z.
  rewrite positive_nat_Z. lia.
Qed.

Lemma shl_align_fst (m : positive) (e e' : Z) :
  e' <= e -> Z.pos (fst (shl_align m e e')) = Z.pos m * 2 ^ (e - e').
Proof.
  intros He. unfold shl_align.
  destruct (e' - e) as [|d|d] eqn:Hd; try lia.
  - replace (e - e') with 0 by lia. cbn [fst]. lia.
  - cbn [fst]. rewrite iter_xO_pow. f_equal. f_equal. lia.
Qed.

Lemma shl_align_keep (m : positive) (e e' : Z) :
  e <= e' -> shl_align m e e' = (m, e).
Proof.
  intros He. unfold shl_align. destruct (e' - e) as [|d|d] eqn:Hd; try lia; reflexivity.
Qed.

Lemma round_units_zero : round_units 0 = 0.
Proof. reflexivity. Qed.

Lemma round_units_top (N : Z) : top <= N -> round_units N = top.
Proof.
  intros HN. unfold round_units. apply Z.min_r.
  assert (Htop : 0 < top) by reflexivity.
  assert (Hd : 2099 <= Zdigits2 N).
  { destruct (Z.lt_ge_cases (Zdigits2 N) 2099) as [Hlt|]; [|assumption].
    assert (Hb := Zdigits2_bounds N ltac:(lia)).
    assert (2 ^ Zdigits2 N <= 2 ^ 2098)
      by (apply pow2_le; assert (H := Zdigits2_nonneg N); lia).
    unfold top in *. lia. }
  assert (Hl : lost N = Zdigits2 N - 53) by (unfold lost; lia).
  assert (Hr := rnd_bounds N loc_Exact (lost N) (lost_nonneg N)).
  assert (Hb := Zdigits2_bounds N ltac:(lia)).
  assert (Hq : 2 ^ 52 <= N / 2 ^ lost N).
  { apply div_pow_ge; try lia.
    replace (lost N + 52) with (Zdigits2 N - 1) by lia. lia. }
  apply Z.le_trans with (2 ^ 52 * 2 ^ lost N).
  - rewrite <- pow2_split by lia. unfold top. apply pow2_le. lia.
  - apply Z.mul_le_mono_nonneg_r; [apply Z.lt_le_incl, pow2_pos; lia | lia].
Qed.

Lemma round_units_mono0 (N1 N2 : Z) :
  0 <= N1 <= N2 -> round_units N1 <= round_units N2.
Proof.
  intros HN. destruct (Z.eq_dec N1 0) as [->|Hne].
  - rewrite round_units_zero. unfold round_units.
    assert (0 < top) by reflexivity.
    assert (Hr := rnd_bounds N2 loc_Exact (lost N2) (lost_nonneg N2)).
    assert (0 <= N2 / 2 ^ lost N2)
      by (apply Z.div_pos; [lia | apply pow2_pos, lost_nonneg]).
    assert (0 < 2 ^ lost N2) by (apply pow2_pos, lost_nonneg).
    apply Z.min_glb; [|lia]. apply Z.mul_nonneg_nonneg; lia.
  - apply round_units_mono. lia.
Qed.

Lemma round_units_units (x : spec_float) :
  nonneg64 x = true -> round_units (units x) = units x.
Proof.
  destruct x as [s|s| |s m e]; cbn [nonneg64 units]; try discriminate.
  - reflexivity.
  - intros _. apply round_units_top. lia.
  - destruct s; [discriminate|]. cbn [negb andb]. apply round_units_id.
Qed.

(** Addition of two positive finite floats. *)
Lemma add_finite (mx my : positive) (ex ey : Z) :
  bounded 53 1024 mx ex = true -> bounded 53 1024 my ey = true ->
  let r := SFadd 53 1024 (S754_finite false mx ex) (S754_finite false my ey) in
  units r = round_units (Z.pos mx * 2 ^ (ex + 1074) + Z.pos my * 2 ^ (ey + 1074))
  /\ nonneg64 r = true.
Proof.
  intros Hx Hy r. subst r.
  destruct (bounded_facts _ _ Hx) as (Hex & Hmx & Hnx & _).
  destruct (bounded_facts _ _ Hy) as (Hey & Hmy & Hny & _).
  unfold SFadd. cbn [cond_Zopp].
  set (ez := Z.min ex ey).
  assert (Hax := shl_align_fst mx ex ez ltac:(lia)).
  assert (Hay := shl_align_fst my ey ez ltac:(lia)).
  set (ax := fst (shl_align mx ex ez)) in *.
  set (ay := fst (shl_align my ey ez)) in *.
  change (Z.pos ax + Z.pos ay) with (Z.pos (ax + ay)).
  cbn [binary_normalize]. unfold binary_round.
  change (Z.pos (digits2_pos (ax + ay))) with (Zdigits2 (Z.pos (ax + ay))).
  assert (Hpx := pow2_pos (ex - ez) ltac:(lia)).
  assert (Hpy := pow2_pos (ey - ez) ltac:(lia)).
  assert (Hc : ez <= fexp 53 1024 (Zdigits2 (Z.pos (ax + ay)) + ez)).
  { rewrite fexp_eq. destruct (Z.eq_dec ez (-1074)) as [->|Hne]; [lia|].
    assert (2 ^ 52 <= Z.pos (ax + ay)).
    { rewrite Pos2Z.inj_add.
      destruct (Z.le_ge_cases ex ey).
      - assert (ez = ex) by lia. specialize (Hnx ltac:(lia)). nia.
      - assert (ez = ey) by lia. specialize (Hny ltac:(lia)). nia. }
    assert (53 <= Zdigits2 (Z.pos (ax + ay))).
    { change 53 with (Zdigits2 (2 ^ 52)). apply Zdigits2_le; [reflexivity | lia]. }
    lia. }
  rewrite shl_align_keep by assumption.
  apply round_exact_spec; try lia;
    try (apply Z.add_pos_pos; apply Z.mul_pos_pos; try lia; apply pow2_pos; lia).
  intros _. rewrite Pos2Z.inj_add, Hax, Hay.
  rewrite Z.mul_add_distr_r, <- !Z.mul_assoc, <- !pow2_split by lia.
  f_equal; f_equal; f_equal; lia.
Qed.

Theorem add_units (a b : spec_float) :
  nonneg64 a = true -> nonneg64 b = true ->
  units (SFadd 53 1024 a b) = round_units (units a + units b)
  /\ nonneg64 (SFadd 53 1024 a b) = true.
Proof.
  intros Ha Hb.
  assert (Hua := units_nonneg a). assert (Hub := units_nonneg b).
  assert (Hra := round_units_units a Ha).
  assert (Hrb := round_units_units b Hb).
  destruct a as [sa|[|]| |[|] ma ea]; try discriminate Ha.
  - (* a zero plus b *)
    cbn [units] in Hra |- *. rewrite Z.add_0_l, Hrb.
    destruct b as [sb|[|]| |[|] mb eb]; try discriminate Hb.
    + destruct sa, sb; split; reflexivity.
    + split; [reflexivity | exact Hb].
    + split; [reflexivity | exact Hb].
  - (* the infinity plus b *)
    assert (Hr : round_units (units (S754_infinity false) + units b) = top)
      by (apply round_units_top; cbn [units]; lia).
    rewrite Hr.
    destruct b as [sb|[|]| |[|] mb eb]; try discriminate Hb;
      split; reflexivity.
  - cbn [nonneg64 negb andb] in Ha.
    destruct b as [sb|[|]| |[|] mb eb]; try discriminate Hb.
    + cbn [units] in Hra |- *. rewrite Z.add_0_r, Hra.
      split; [reflexivity | exact Ha].
    + assert (Hr : round_units (units (S754_finite false ma ea)
                                + units (S754_infinity false)) = top)
        by (apply round_units_top; cbn [units] in *; lia).
      rewrite Hr. split; reflexivity.
    + cbn [nonneg64 negb andb] in Hb.
      cbn [units]. now apply add_finite.
Qed.

Lemma mul_hundred_finite (m : positive) (e : Z) :
  bounded 53 1024 m e = true ->
  let r := SFmul 53 1024 (S754_finite false m e) hundred in
  units r = round_units (Z.pos m * 2 ^ (e + 1074) * 100)
  /\ nonneg64 r = true.
Proof.
  intros Hb r. subst r.
  destruct (bounded_facts _ _ Hb) as (He & Hm & _).
  unfold SFmul, hundred. cbn [xorb].
  rewrite Pos2Z.inj_mul.
  set (K := Z.pos 7036874417766400).
  assert (HK : K = 100 * 2 ^ 46) by reflexivity.
  assert (Hp := pow2_pos (e + 1074) ltac:(lia)).
  assert (HM : 2 ^ 52 <= Z.pos m * K) by (subst K; lia).
  assert (Hd : 53 <= Zdigits2 (Z.pos m * K)).
  { change 53 with (Zdigits2 (2 ^ 52)). apply Zdigits2_le; [reflexivity | lia]. }
  apply round_exact_spec; try lia.
  - intros Hk. rewrite HK.
    replace (e + 1074) with (46 + (e + -46 + 1074)) by lia.
    rewrite (pow2_split 46 (e + -46 + 1074)) by lia. ring.
  - intros Hk. rewrite HK.
    assert (Hs : 2 ^ 46 = 2 ^ (e + 1074) * 2 ^ (- (e + -46 + 1074)))
      by (rewrite <- pow2_split by lia; f_equal; lia).
    rewrite Hs. ring.
  - rewrite fexp_eq. lia.
Qed.

Lemma Zdigits2_pow2 (k : Z) : 0 <= k -> Zdigits2 (2 ^ k) = k + 1.
Proof.
  intros Hk. apply Zdigits2_unique.
  - replace (k + 1 - 1) with k by lia. split; [lia|]. apply pow2_lt; lia.
  - now apply pow2_pos.
Qed.

Lemma new_location_zero (nb : Z) : new_location nb 0 = loc_Exact.
Proof.
  unfold new_location, new_location_even, new_location_odd.
  now destruct (Z.even nb).
Qed.

Lemma pow2_lt_inv (a b : Z) : 0 <= a -> 0 <= b -> 2 ^ a < 2 ^ b -> a < b.
Proof. intros Ha Hb H. apply (Z.pow_lt_mono_r_iff 2); lia. Qed.

Lemma div_facts (m b q r E : Z) :
  m = b * q + r -> 0 <= r < b -> 0 <= m -> m <= b * E ->
  0 <= q /\ q <= E /\ (q = E -> r = 0).
Proof. intros; nia. Qed.

Lemma quot_ge (m b q r K B : Z) :
  m = b * q + r -> 0 <= r < b -> 0 < K -> K * B <= m -> b < B -> K <= q.
Proof. intros; nia. Qed.

(** A quotient of two positive finite floats, the first not above the
    second, is a float not above one. *)
Theorem div_le_one (ma mb : positive) (ea eb : Z) :
  bounded 53 1024 ma ea = true -> bounded 53 1024 mb eb = true ->
  Z.pos ma * 2 ^ (ea + 1074) <= Z.pos mb * 2 ^ (eb + 1074) ->
  let r := SFdiv 53 1024 (S754_finite false ma ea) (S754_finite false mb eb) in
  nonneg64 r = true /\ units r <= 2 ^ 1074.
Proof.
  intros Ha Hb Hle r. subst r.
  destruct (bounded_facts _ _ Ha) as (Hea & Hma & _).
  destruct (bounded_facts _ _ Hb) as (Heb & Hmb & _).
  unfold SFdiv, SFdiv_core_binary. cbn [xorb].
  set (d1 := Zdigits2 (Z.pos ma)). set (d2 := Zdigits2 (Z.pos mb)).
  assert (Hd1 := Zdigits2_bounds (Z.pos ma) ltac:(lia)). fold d1 in Hd1.
  assert (Hd2 := Zdigits2_bounds (Z.pos mb) ltac:(lia)). fold d2 in Hd2.
  assert (Hd1p := Zdigits2_pos (Z.pos ma) ltac:(lia)). fold d1 in Hd1p.
  assert (Hd2p := Zdigits2_pos (Z.pos mb) ltac:(lia)). fold d2 in Hd2p.
  set (D := d1 + ea - (d2 + eb)).
  set (e' := Z.min (fexp 53 1024 D) (ea - eb)).
  set (s := ea - eb - e').
  assert (Hs : 0 <= s) by (subst s e'; lia).
  assert (Hpa := pow2_pos (ea + 1074) ltac:(lia)).
  assert (Hpb := pow2_pos (eb + 1074) ltac:(lia)).
  (* the dividend's magnitude does not exceed the divisor's *)
  assert (HD : D <= 0).
  { assert (2 ^ (d1 - 1 + (ea + 1074)) < 2 ^ (d2 + (eb + 1074))).
    { rewrite (pow2_split (d1 - 1) (ea + 1074)) by lia.
      rewrite (pow2_split d2 (eb + 1074)) by lia.
      apply Z.le_lt_trans with (Z.pos ma * 2 ^ (ea + 1074)).
      - apply Z.mul_le_mono_nonneg_r; lia.
      - apply Z.le_lt_trans with (Z.pos mb * 2 ^ (eb + 1074)); [assumption|].
        apply Z.mul_lt_mono_pos_r; lia. }
    apply pow2_lt_inv in H; subst D; lia. }
  assert (He' : e' <= -53) by (subst e'; rewrite fexp_eq; lia).
  set (m' := match s with
             | 0 => Z.pos ma
             | Z.pos _ => Z.shiftl (Z.pos ma) s
             | Z.neg _ => 0
             end).
  assert (Hm' : m' = Z.pos ma * 2 ^ s).
  { subst m'. destruct s as [|p|p] eqn:Hsp; try lia.
    now rewrite Z.shiftl_mul_pow2 by lia. }
  clearbody m'.
  assert (Hps := pow2_pos s Hs).
  assert (Hpe := pow2_pos (- e') ltac:(lia)).
  (* the scaled dividend is at most the divisor times 2 ^ - e' *)
  assert (Hm'le : m' <= Z.pos mb * 2 ^ (- e')).
  { apply (Z.mul_le_mono_pos_r _ _ (2 ^ (eb + 1074))); [assumption|].
    assert (E1 : 2 ^ s * 2 ^ (eb + 1074) = 2 ^ (ea + 1074) * 2 ^ (- e'))
      by (rewrite <- !pow2_split by lia; f_equal; subst s; lia).
    rewrite Hm'.
    replace (Z.pos ma * 2 ^ s * 2 ^ (eb + 1074))
      with (Z.pos ma * 2 ^ (ea + 1074) * 2 ^ (- e'))
      by (rewrite <- !Z.mul_assoc, E1; reflexivity).
    replace (Z.pos mb * 2 ^ (- e') * 2 ^ (eb + 1074))
      with (Z.pos mb * 2 ^ (eb + 1074) * 2 ^ (- e')) by ring.
    apply Z.mul_le_mono_nonneg_r; lia. }
  assert (Hm'ge : 2 ^ (d1 - 1 + s) <= m').
  { rewrite Hm', pow2_split by lia. apply Z.mul_le_mono_nonneg_r; lia. }
  pose proof (Z_div_mod m' (Z.pos mb) ltac:(lia)) as Hdm.
  destruct (Z.div_eucl m' (Z.pos mb)) as [q r].
  destruct Hdm as [Hqr Hr].
  (* so the quotient is at most 2 ^ - e', exactly so only without remainder *)
  destruct (div_facts m' (Z.pos mb) q r (2 ^ (- e')) Hqr Hr ltac:(lia) Hm'le)
    as (Hq0 & Hqle & Hqeq).
  (* the quotient has the bits the rounding needs *)
  set (n := fexp 53 1024 (Zdigits2 q + e') - e').
  assert (Hn : 0 <= n /\ (q = 0 -> e' + n = -1074)).
  { subst n. rewrite fexp_eq.
    destruct (Z.eq_dec q 0) as [->|Hq].
    - assert (Hlt : 2 ^ (d1 - 1 + s) < 2 ^ d2) by lia.
      apply pow2_lt_inv in Hlt; try lia.
      assert (HDe : D <= e') by (subst D s; lia).
      assert (e' <= fexp 53 1024 D) by (subst e'; lia).
      rewrite fexp_eq in *. cbn [Zdigits2]. lia.
    - split; [|lia].
      assert (Hdq : D - e' <= Zdigits2 q).
      { assert (Hqp := Zdigits2_pos q ltac:(lia)).
        destruct (Z.le_gt_cases (d1 - d2 + s) 1) as [Hk|Hk];
          [subst D s; lia|].
        assert (Hk0 : 0 <= d1 + s - d2 - 1) by lia.
        assert (Hq2 : 2 ^ (d1 + s - d2 - 1) <= q).
        { apply (quot_ge m' (Z.pos mb) q r _ (2 ^ d2) Hqr Hr);
            [apply pow2_pos; lia | | lia].
          rewrite <- pow2_split by lia.
          replace (d1 + s - d2 - 1 + d2) with (d1 - 1 + s) by lia. assumption. }
        assert (Hdig := Zdigits2_le (2 ^ (d1 + s - d2 - 1)) q
                                    (pow2_pos _ Hk0) Hq2).
        rewrite Zdigits2_pow2 in Hdig by lia. subst D s. lia. }
      assert (e' <= fexp 53 1024 D) by (subst e'; lia).
      rewrite fexp_eq in *. lia. }
  destruct Hn as [Hn Hn0].
  rewrite binary_round_aux_spec by assumption. fold n.
  set (loc := new_location (Z.pos mb) r).
  assert (Hfit := rnd_fits q loc e' Hq0 Hn). fold n in Hfit.
  assert (Hc : -1074 <= e' + n) by (subst n; rewrite fexp_eq; lia).
  assert (Hnorm : e' + n = -1074 \/ 2 ^ 52 <= rnd q loc n).
  { destruct (Z.eq_dec q 0) as [Hq|Hq]; [left; now apply Hn0|].
    destruct (Z.eq_dec (e' + n) (-1074)); [now left | right].
    apply rnd_normal; try lia; fold n; lia. }
  split; [now apply nonneg64_pack|].
  rewrite units_pack by assumption.
  apply Z.le_trans with (rnd q loc n * 2 ^ (e' + n + 1074)); [apply Z.le_min_l|].
  (* the rounded mantissa is at most 2 ^ - c, c the final exponent *)
  assert (Hdq : Zdigits2 q <= - e' + 1).
  { destruct (Z.eq_dec q 0) as [->|Hq]; [cbn [Zdigits2]; lia|].
    rewrite <- (Zdigits2_pow2 (- e')) by lia. apply Zdigits2_le; lia. }
  assert (Hcneg : e' + n <= -52) by (subst n; rewrite fexp_eq; lia).
  assert (Hrnd : rnd q loc n <= 2 ^ (- (e' + n))).
  { destruct (Z.eq_dec q (2 ^ (- e'))) as [Heq|Hne].
    - subst loc. rewrite (Hqeq Heq), new_location_zero.
      assert (Hsplit : 2 ^ (- e') = 2 ^ (- (e' + n)) * 2 ^ n)
        by (rewrite <- pow2_split by lia; f_equal; lia).
      rewrite rnd_exact; try lia.
      + rewrite Heq, Hsplit, Z.div_mul by (apply Z.pow_nonzero; lia). lia.
      + rewrite Heq, Hsplit. apply Z.mod_mul. apply Z.pow_nonzero; lia.
    - assert (Hb1 := rnd_bounds q loc n Hn).
      assert (q / 2 ^ n < 2 ^ (- (e' + n))); [|lia].
      apply div_pow_lt; try lia.
      replace (n + - (e' + n)) with (- e') by lia. lia. }
  assert (Hsplit : 2 ^ 1074 = 2 ^ (- (e' + n)) * 2 ^ (e' + n + 1074))
    by (rewrite <- pow2_split by lia; f_equal; lia).
  rewrite Hsplit. apply Z.mul_le_mono_nonneg_r; [|assumption].
  apply Z.lt_le_incl, pow2_pos; lia.
Qed.

End Rounding.

(** ** The classifier *)

Section Classifier.

Lemma first_match_earliest (d : list (string * recommendation))
      (key lowered : string) (rec : recommendation) :
  dict_getitem d key = Ok rec ->
  str_in key lowered = true ->
  Forall (fun k => str_in k lowered = false) (keys_before d key) ->
  first_match d lowered = Some rec.
Proof.
  induction d as [|[k v] d IH]; simpl; [discriminate|].
  destruct (String.eqb k key) eqn:Hk.
  - apply String.eqb_eq in Hk. subst k. intros [= ->] -> _. reflexivity.
  - intros Hget Hin Hbefore. inversion Hbefore as [|? ? Hk0 Hrest]; subst.
    rewrite Hk0. now apply IH.
Qed.

Lemma first_match_none (d : list (string * recommendation)) (lowered : string) :
  Forall (fun k => str_in k lowered = false) (map fst d) ->
  first_match d lowered = None.
Proof.
  induction d as [|[k v] d IH]; simpl; [reflexivity|].
  intros H. inversion H as [|? ? Hk Hrest]; subst. rewrite Hk. now apply IH.
Qed.

End Classifier.

(** C1, as amended. Whenever a function name contains a catalogue key
    (compared in lower case), contains none of the keys enumerated before it,
    and does not contain [blocked_matrix_multiply], the classifier returns the
    verdict stored under that key: the first key in enumeration order wins. *)
Theorem first_match_wins (key function_name : string) (rec : recommendation) :
  dict_getitem recommendations key = Ok rec ->
  str_in key (lower function_name) = true ->
  Forall (fun k => str_in k (lower function_name) = false)
         (keys_before recommendations key) ->
  str_in "blocked_matrix_multiply" (lower function_name) = false ->
  generate_parallelization_recommendations function_name = Ok rec.
Proof.
  intros Hget Hin Hbefore _.
  unfold generate_parallelization_recommendations.
  now rewrite (first_match_earliest _ _ _ _ Hget Hin Hbefore).
Qed.

Lemma first_match_wins_witness :
  exists rec,
    dict_getitem recommendations "matrix_vector_multiply" = Ok rec /\
    generate_parallelization_recommendations "Matrix_Vector_Multiply_kernel"
    = Ok rec.
Proof.
  eexists. split; [reflexivity|].
  apply (first_match_wins "matrix_vector_multiply"
                          "Matrix_Vector_Multiply_kernel").
  - reflexivity.
  - reflexivity.
  - repeat constructor.
  - reflexivity.
Defined.

(** C1, as stated, fails: a name may contain two catalogue keys, and the one
    enumerated first decides. The name below contains [data_preprocessing]
    and is given the verdict of [matrix_multiply]. *)
Lemma later_key_is_shadowed :
  ~ (forall key function_name rec,
        dict_getitem recommendations key = Ok rec ->
        str_in key (lower function_name) = true ->
        generate_parallelization_recommendations function_name = Ok rec).
Proof.
  intros H.
  specialize (H "data_preprocessing" "data_preprocessing_for_matrix_multiply"
                _ eq_refl eq_refl).
  vm_compute in H. discriminate H.
Qed.

(** C8. A name in which no catalogue key and none of the words of the
    secondary chain occurs is classified, without error, by the unknown
    verdict: parallelizable [None], complexity "Unknown", pattern "Requires
    manual analysis", platforms ["Manual analysis needed"], strategy "Profile
    function behavior and analyze dependencies". *)
Theorem unmatched_name_is_unknown (function_name : string) :
  Forall (fun k => str_in k (lower function_name) = false)
         (map fst recommendations) ->
  Forall (fun w => str_in w (lower function_name) = false)
         ["multiply"; "matmul"; "vector"; "preprocess"; "postprocess";
          "init"; "sum"; "checksum"] ->
  exists rec,
    generate_parallelization_recommendations function_name = Ok rec /\
    parallelizable rec = PyNone /\
    complexity rec = "Unknown" /\
    pattern rec = "Requires manual analysis" /\
    platforms rec = ["Manual analysis needed"] /\
    strategy rec = "Profile function behavior and analyze dependencies".
Proof.
  intros Hkeys Hwords.
  exists unknown_recommendation. split; [|repeat split].
  unfold generate_parallelization_recommendations.
  rewrite (first_match_none _ _ Hkeys).
  repeat match goal with
         | H : Forall _ (_ :: _) |- _ =>
             let Hw := fresh "Hw" in
             inversion H as [|? ? Hw ?]; subst; clear H; rewrite ?Hw
         end.
  reflexivity.
Qed.

Lemma unmatched_name_is_unknown_witness :
  exists rec,
    generate_parallelization_recommendations "foo_bar_baz" = Ok rec /\
    parallelizable rec = PyNone /\
    complexity rec = "Unknown" /\
    pattern rec = "Requires manual analysis" /\
    platforms rec = ["Manual analysis needed"] /\
    strategy rec = "Profile function behavior and analyze dependencies".
Proof.
  apply (unmatched_name_is_unknown "foo_bar_baz"); repeat constructor.
Defined.

(** C10. A name that contains [blocked_matrix_multiply] also contains
    [matrix_multiply], which is enumerated first: it is given the verdict of
    [matrix_multiply] (platforms OpenMP and CUDA, block decomposition), and no
    name at all is given the verdict stored under [blocked_matrix_multiply]. *)
Theorem blocked_matrix_multiply_unreachable (function_name : string) :
  (str_in "blocked_matrix_multiply" (lower function_name) = true ->
   exists rec,
     generate_parallelization_recommendations function_name = Ok rec /\
     dict_getitem recommendations "matrix_multiply" = Ok rec /\
     platforms rec = ["OpenMP"; "CUDA"] /\
     strategy rec = "Block decomposition, GPU thread blocks for (i,j) pairs")
  /\
  (forall rec,
     dict_getitem recommendations "blocked_matrix_multiply" = Ok rec ->
     generate_parallelization_recommendations function_name <> Ok rec).
Proof.
  split.
  - intros Hin. eexists. split; [|split; [reflexivity | split; reflexivity]].
    unfold generate_parallelization_recommendations.
    cbn [first_match recommendations].
    now rewrite (str_in_trans "matrix_multiply" "blocked_matrix_multiply" _
                              eq_refl Hin).
  - intros rec [= <-].
    unfold generate_parallelization_recommendations.
    cbn [first_match recommendations].
    destruct (str_in "matrix_multiply" (lower function_name)) eqn:Hmm;
      [discriminate|].
    rewrite (str_in_absent "matrix_multiply" "blocked_matrix_multiply" _
                           eq_refl Hmm).
    repeat match goal with
           | |- context [str_in ?k (lower function_name)] =>
               destruct (str_in k (lower function_name)); cbn [orb andb];
               try discriminate
           end.
Qed.

Lemma blocked_matrix_multiply_unreachable_witness :
  exists rec,
    generate_parallelization_recommendations "blocked_matrix_multiply_omp"
    = Ok rec /\
    dict_getitem recommendations "matrix_multiply" = Ok rec /\
    platforms rec = ["OpenMP"; "CUDA"] /\
    strategy rec = "Block decomposition, GPU thread blocks for (i,j) pairs".
Proof.
  exact (proj1 (blocked_matrix_multiply_unreachable
                  "blocked_matrix_multiply_omp") eq_refl).
Defined.
(** ** The extractor *)

Section Extractor.

Lemma float_of_str_raises (s : string) (e : exn) :
  float_of_str s = Raise e -> e = ValueError.
Proof.
  unfold float_of_str.
  destruct (remove_underscores "000" s) as [t|]; [|now intros [= <-]].
  destruct (read_sign t) as [neg body].
  destruct (_ || _); [discriminate|].
  destruct (String.eqb _ _); [discriminate|].
  destruct (parse_decimal neg body); [discriminate | now intros [= <-]].
Qed.

Lemma last_cons {B : Type} (l : list B) :
  forall a d : B, last (a :: l) d = last l a.
Proof.
  induction l as [|b l IH]; intros a d; [reflexivity|].
  change (last (a :: b :: l) d) with (last (b :: l) d).
  now rewrite (IH b d), (IH b a).
Qed.

Lemma getitem_last_cons (a : string) (l : list string) :
  getitem_last (a :: l) = Ok (last l a).
Proof.
  unfold getitem_last.
  destruct (rev (a :: l)) as [|x r] eqn:Hrev.
  - apply (f_equal (@List.length _)) in Hrev.
    rewrite length_rev in Hrev. discriminate.
  - f_equal. rewrite <- (last_cons l a x).
    rewrite <- (rev_involutive (a :: l)), Hrev. simpl. now rewrite last_last.
Qed.

(** The [try] block either builds the record of its tokens, or raises the
    [ValueError] of a token that is no float. *)
Lemma try_row_tokens (parts : list string) :
  (List.length parts <? 5) = false ->
  try_row parts = Ok (tokens_record parts)
  \/ (try_row parts = Raise ValueError /\ tokens_record parts = None).
Proof.
  destruct parts as [|t0 [|t1 [|t2 [|t3 [|t4 more]]]]]; try discriminate.
  intros _. unfold try_row, tokens_record. cbn [getitem nth_error bind].
  destruct (float_of_str t0) as [share|e0] eqn:H0; cbn [bind].
  2:{ right. now rewrite (float_of_str_raises _ _ H0). }
  destruct (float_of_str t1) as [cumulative|e1] eqn:H1; cbn [bind].
  2:{ right. now rewrite (float_of_str_raises _ _ H1). }
  destruct (float_of_str t2) as [self|e2] eqn:H2; cbn [bind].
  2:{ right. now rewrite (float_of_str_raises _ _ H2). }
  left.
  change (getitem_last (t0 :: t1 :: t2 :: t3 :: t4 :: more))
    with (getitem_last (t0 :: (t1 :: t2 :: t3 :: t4 :: more))).
  rewrite getitem_last_cons. cbn [bind].
  rewrite !last_cons.
  destruct (lt share (of_int 0) || lt self (of_int 0)); [reflexivity|].
  now destruct (String.eqb t3 "null").
Qed.

Lemma tokens_record_short (parts : list string) :
  (List.length parts <? 5) = true -> tokens_record parts = None.
Proof.
  destruct parts as [|t0 [|t1 [|t2 [|t3 [|t4 more]]]]]; try reflexivity.
  discriminate.
Qed.

Lemma nonblank_lines_cons (line : string) (rest : list string) :
  nonblank_lines (line :: rest)
  = if String.eqb (strip line) "" then nonblank_lines rest
    else strip line :: nonblank_lines rest.
Proof.
  unfold nonblank_lines. cbn [map filter].
  now destruct (String.eqb (strip line) "").
Qed.

(** The loop computes the records of the candidate rows, in order. *)
Lemma parse_lines_spec (lines : list string) :
  forall header_found functions,
    parse_lines lines header_found functions
    = Ok (functions ++ records_of (rows_from header_found lines))%list.
Proof.
  induction lines as [|line rest IH]; intros header_found functions.
  - unfold rows_from. destruct header_found; simpl; now rewrite app_nil_r.
  - cbn [parse_lines]. unfold rows_from in *.
    rewrite nonblank_lines_cons.
    destruct (String.eqb (strip line) "") eqn:Hblank; [apply IH|].
    destruct header_found; cbn [negb].
    + cbn [until_section_end]. unfold is_section_end.
      destruct (startswith (strip line) "Call graph") eqn:Hend.
      { simpl. now rewrite app_nil_r. }
      cbn [filter]. unfold is_header_fragment at 1.
      destruct (str_in "name" (lower (strip line))
                || startswith (strip line) "cumulative"
                || startswith (strip line) "seconds") eqn:Hfrag;
        cbn [negb]; [apply IH|].
      unfold records_of at 1. cbn [flat_map]. fold (records_of).
      unfold row_record at 1.
      destruct (List.length (split (strip line)) <? 5) eqn:Hlen.
      { rewrite (tokens_record_short _ Hlen). apply IH. }
      destruct (try_row_tokens _ Hlen) as [-> | [-> ->]]; [|apply IH].
      destruct (tokens_record (split (strip line))) as [r|]; [|apply IH].
      rewrite IH. now rewrite <- app_assoc.
    + cbn [after_header]. unfold is_header.
      destruct (startswith (strip line) "%"
                || startswith (lower (strip line)) "time"); apply IH.
Qed.

Lemma flat_profile_section_none (content : string) :
  flat_profile_section content = None
  <-> str_in "Flat profile:" content = false.
Proof.
  induction content as [|c content IH].
  - split; reflexivity.
  - cbn [flat_profile_section str_in].
    destruct (startswith (String c content) "Flat profile:").
    + split; discriminate.
    + exact IH.
Qed.

Lemma records_of_length (rows : list string) :
  List.length (records_of rows)
  = List.length
      (filter (fun l => match row_record l with Some _ => true | None => false end)
              rows).
Proof.
  induction rows as [|row rows IH]; [reflexivity|].
  unfold records_of in *. cbn [flat_map filter].
  destruct (row_record row); simpl; now rewrite IH.
Qed.

Lemma tokens_record_fields (parts : list string) (r : function_record) :
  tokens_record parts = Some r ->
  exists t0 t1 t2 t3 t4 more,
    parts = t0 :: t1 :: t2 :: t3 :: t4 :: more
    /\ float_of_str t0 = Ok (time_percent r)
    /\ float_of_str t1 = Ok (cumulative_seconds r)
    /\ float_of_str t2 = Ok (self_seconds r)
    /\ calls r = (if String.eqb t3 "null" then "0" else t3)
    /\ name r = last more t4
    /\ lt (time_percent r) (of_int 0) = false
    /\ lt (self_seconds r) (of_int 0) = false.
Proof.
  destruct parts as [|t0 [|t1 [|t2 [|t3 [|t4 more]]]]]; try discriminate.
  unfold tokens_record.
  destruct (float_of_str t0) as [share|] eqn:H0; [|discriminate].
  destruct (float_of_str t1) as [cumulative|] eqn:H1; [|discriminate].
  destruct (float_of_str t2) as [self|] eqn:H2; [|discriminate].
  destruct (lt share (of_int 0)) eqn:Hs; [discriminate|].
  destruct (lt self (of_int 0)) eqn:Hf; [discriminate|].
  cbn [orb]. intros [= <-]. exists t0, t1, t2, t3, t4, more.
  cbn. repeat split; assumption.
Qed.

Lemma records_of_rows (rows : list string) :
  Forall2 (fun row r => row_record row = Some r)
          (filter (fun l => match row_record l with Some _ => true | None => false end)
                  rows)
          (records_of rows).
Proof.
  induction rows as [|row rows IH]; [constructor|].
  unfold records_of in *. cbn [flat_map filter].
  destruct (row_record row) as [r|] eqn:Hrow; simpl; [|exact IH].
  now constructor.
Qed.

End Extractor.

(** ** Hotspot selection and the tier *)

(** C5. [analyze_hotspots] keeps, in their order, exactly the records whose
    share is [>=] the threshold; it returns the empty list on the empty list;
    and every hotspot at a threshold is a hotspot at any smaller one. *)
Theorem analyze_hotspots_is_filter
        (functions : list function_record) (t1 t2 : float) :
  analyze_hotspots functions t1
  = filter (fun f => ge (time_percent f) t1) functions
  /\ analyze_hotspots [] t1 = []
  /\ (lt t1 t2 = true ->
      incl (analyze_hotspots functions t2) (analyze_hotspots functions t1)).
Proof.
  assert (Hfilter : forall t, analyze_hotspots functions t
                              = filter (fun f => ge (time_percent f) t) functions)
    by (intros t; now destruct functions).
  split; [apply Hfilter | split; [reflexivity|]].
  intros Hlt f. rewrite !Hfilter, !filter_In. intros [Hin Hge]. split; [exact Hin|].
  unfold ge in *. apply lt_le. now apply (lt_le_trans t1 t2).
Qed.

Lemma analyze_hotspots_is_filter_witness :
  let f (share : Z) := {| name := "f"; time_percent := of_int share;
                          cumulative_seconds := of_int 1;
                          self_seconds := of_int 1; calls := "1" |} in
  incl (analyze_hotspots [f 30; f 5; f 0]%Z (of_int 10))
       (analyze_hotspots [f 30; f 5; f 0]%Z (of_int 1)).
Proof.
  intros f.
  exact (proj2 (proj2 (analyze_hotspots_is_filter
                         [f 30; f 5; f 0]%Z (of_int 1) (of_int 10))) eq_refl).
Defined.

(** C9. The tier reported by [main] depends on [parallelizable_time] alone:
    above 50 it is the high tier, above 20 and at most 50 the moderate tier,
    at most 20 the limited tier; 50 itself is moderate and 20 itself is
    limited. *)
Theorem platform_tier_boundaries (p : float) :
  (forall hotspots s,
      main_summary hotspots = Ok s ->
      potential s = platform_tier (parallelizable_time s))
  /\ (gt p (of_int 50) = true -> platform_tier p = High)
  /\ (gt p (of_int 20) = true -> le p (of_int 50) = true ->
      platform_tier p = Moderate)
  /\ (le p (of_int 20) = true -> platform_tier p = Limited)
  /\ platform_tier (of_int 50) = Moderate
  /\ platform_tier (of_int 20) = Limited.
Proof.
  unfold platform_tier. repeat split.
  - intros hotspots s. unfold main_summary.
    destruct (main_loop hotspots (of_int 0) (of_int 0)) as [[total par]|e];
      simpl; [|discriminate].
    now intros [= <-].
  - now intros ->.
  - intros H20 H50. now rewrite (le_not_gt _ _ H50), H20.
  - intros H20.
    assert (H50 : le p (of_int 50) = true)
      by (apply (le_trans p (of_int 20)); [exact H20 | reflexivity]).
    now rewrite (le_not_gt _ _ H50), (le_not_gt _ _ H20).
Qed.

Lemma platform_tier_boundaries_witness :
  platform_tier (of_int 75) = High
  /\ platform_tier (of_int 35) = Moderate
  /\ platform_tier (of_int 7) = Limited.
Proof.
  split; [|split].
  - exact (proj1 (proj2 (platform_tier_boundaries (of_int 75))) eq_refl).
  - exact (proj1 (proj2 (proj2 (platform_tier_boundaries (of_int 35))))
                 eq_refl eq_refl).
  - exact (proj1 (proj2 (proj2 (proj2 (platform_tier_boundaries (of_int 7)))))
                 eq_refl).
Defined.

(** ** Properties of the extractor *)

Lemma parse_gprof_file_readable (fs : filesystem) (filename content section : string) :
  fs filename = Readable content ->
  flat_profile_section content = Some section ->
  parse_gprof_file fs filename
  = ([], Ok (Some (sorted_reverse time_percent
                                  (data_records (splitlines section))))).
Proof.
  intros Hfs Hsec. unfold parse_gprof_file. rewrite Hfs, Hsec.
  now rewrite parse_lines_spec.
Qed.

Lemma parse_gprof_file_some (fs : filesystem) (filename : string)
      (functions : list function_record) :
  snd (parse_gprof_file fs filename) = Ok (Some functions) ->
  exists content section,
    fs filename = Readable content
    /\ flat_profile_section content = Some section
    /\ functions = sorted_reverse time_percent
                                  (data_records (splitlines section)).
Proof.
  unfold parse_gprof_file.
  destruct (fs filename) as [| |content] eqn:Hfs; try discriminate.
  destruct (flat_profile_section content) as [section|] eqn:Hsec;
    [|discriminate].
  rewrite parse_lines_spec. cbn [snd bind app].
  intros [= <-]. now exists content, section.
Qed.

(** C2, as amended. The value returned tells three outcomes apart: [None],
    the empty list (a section with no data row) and a non-empty list. A
    missing path and a text without "Flat profile:" both return [None]; they
    differ in the line printed, and in nothing the caller receives. A path
    that exists and cannot be opened raises. *)
Theorem parse_gprof_file_outcomes (fs : filesystem) (filename : string) :
  match fs filename with
  | Missing =>
      parse_gprof_file fs filename
      = (["Error: " ++ filename ++ " not found"], Ok None)
  | Unreadable => snd (parse_gprof_file fs filename) = Raise OSError
  | Readable content =>
      match flat_profile_section content with
      | None =>
          str_in "Flat profile:" content = false
          /\ parse_gprof_file fs filename
             = (["No flat profile found in " ++ filename], Ok None)
      | Some section =>
          str_in "Flat profile:" content = true
          /\ exists functions,
              parse_gprof_file fs filename = ([], Ok (Some functions))
              /\ (functions = [] <-> data_rows (splitlines section) = [])
      end
  end
  /\ "Error: " ++ filename ++ " not found"
     <> "No flat profile found in " ++ filename.
Proof.
  split; [|discriminate].
  destruct (fs filename) as [| |content] eqn:Hfs.
  - unfold parse_gprof_file. now rewrite Hfs.
  - unfold parse_gprof_file. now rewrite Hfs.
  - destruct (flat_profile_section content) as [section|] eqn:Hsec.
    + split.
      * destruct (str_in "Flat profile:" content) eqn:Hin; [reflexivity|].
        apply flat_profile_section_none in Hin. congruence.
      * eexists. split; [exact (parse_gprof_file_readable _ _ _ _ Hfs Hsec)|].
        rewrite sorted_reverse_nil. unfold data_records, data_rows.
        rewrite <- !length_zero_iff_nil. now rewrite records_of_length.
    + split; [now apply flat_profile_section_none|].
      unfold parse_gprof_file. now rewrite Hfs, Hsec.
Qed.

(** C2, as stated, fails: a missing path and a readable text without the
    marker are answered by the same value, [None]. *)
Lemma missing_and_markerless_both_none :
  no_file "gmon.txt" = Missing
  /\ only_file "no profile in this text" "gmon.txt"
     = Readable "no profile in this text"
  /\ flat_profile_section "no profile in this text" = None
  /\ snd (parse_gprof_file no_file "gmon.txt")
     = snd (parse_gprof_file (only_file "no profile in this text") "gmon.txt").
Proof. repeat split. Qed.

(** C6, as amended. The [calls] field of an accepted row is "0" when its
    fourth token is the placeholder "null", and the token itself otherwise,
    numeric or not. *)
Theorem calls_is_token_or_zero (parts : list string) (r : function_record) :
  try_row parts = Ok (Some r) ->
  exists t3,
    nth_error parts 3 = Some t3
    /\ calls r = (if String.eqb t3 "null" then "0" else t3).
Proof.
  unfold try_row.
  destruct parts as [|t0 [|t1 [|t2 [|t3 more]]]];
    cbn [getitem nth_error bind];
    repeat match goal with
           | |- context [float_of_str ?t] =>
               destruct (float_of_str t); cbn [bind]
           end; try discriminate.
  destruct (getitem_last _); cbn [bind]; [|discriminate].
  destruct (_ || _); [discriminate|].
  intros [= <-]. exists t3. split; [reflexivity|].
  cbn. now destruct (String.eqb t3 "null").
Qed.

Lemma calls_is_token_or_zero_witness :
  exists r t3,
    try_row (split odd_calls_row) = Ok (Some r)
    /\ nth_error (split odd_calls_row) 3 = Some t3
    /\ calls r = (if String.eqb t3 "null" then "0" else t3).
Proof.
  eexists.
  destruct (calls_is_token_or_zero (split odd_calls_row) _ eq_refl)
    as [t3 [Ht3 Hcalls]].
  exists t3. split; [reflexivity | split; assumption].
Defined.

(** C6, as stated, fails: a call count that is not a number is kept as it
    is. *)
Lemma non_numeric_calls_are_kept :
  ~ (forall parts r t3,
        try_row parts = Ok (Some r) ->
        nth_error parts 3 = Some t3 ->
        calls r = (if numeric_token t3 then t3 else "0")).
Proof.
  intros H.
  specialize (H (split odd_calls_row) _ "n/a" eq_refl eq_refl).
  vm_compute in H. discriminate H.
Qed.

(** C7, as amended. Whatever the text, the extraction returns without an
    exception. When the text has a flat profile, it returns exactly one
    record for each data row: a line after the first header line and before
    a line that starts the next section, that is no header fragment, has five
    tokens at least, whose first three tokens read as floats, with neither
    [time_percent] nor [self_seconds] below zero. The numeric fields of each
    record are the floats its row reads as. *)
Theorem extraction_total_and_exact
        (fs : filesystem) (filename content : string) :
  fs filename = Readable content ->
  (exists value, snd (parse_gprof_file fs filename) = Ok value)
  /\ (forall section,
        flat_profile_section content = Some section ->
        exists functions,
          snd (parse_gprof_file fs filename) = Ok (Some functions)
          /\ Permutation functions (data_records (splitlines section))
          /\ List.length functions
             = List.length (data_rows (splitlines section))
          /\ Forall2
               (fun row r =>
                  exists t0 t1 t2 more,
                    split row = t0 :: t1 :: t2 :: more
                    /\ float_of_str t0 = Ok (time_percent r)
                    /\ float_of_str t1 = Ok (cumulative_seconds r)
                    /\ float_of_str t2 = Ok (self_seconds r))
               (data_rows (splitlines section))
               (data_records (splitlines section))).
Proof.
  intros Hfs. split.
  - unfold parse_gprof_file. rewrite Hfs.
    destruct (flat_profile_section content); [|now eexists].
    rewrite parse_lines_spec. now eexists.
  - intros section Hsec.
    rewrite (parse_gprof_file_readable _ _ _ _ Hfs Hsec).
    eexists. split; [reflexivity|]. split; [apply sorted_reverse_perm|]. split.
    + rewrite sorted_reverse_length. apply records_of_length.
    + eapply Forall2_impl; [|apply records_of_rows].
      intros row r Hrow. unfold row_record in Hrow.
      destruct (tokens_record_fields _ _ Hrow)
        as (t0 & t1 & t2 & t3 & t4 & more & Hsplit & H0 & H1 & H2 & _).
      now exists t0, t1, t2, (t3 :: t4 :: more).
Qed.

Lemma extraction_total_and_exact_witness :
  exists functions,
    snd (parse_gprof_file (only_file sample_profile) "gmon.txt")
    = Ok (Some functions)
    /\ List.length functions = 2.
Proof.
  destruct (proj2 (extraction_total_and_exact
                     (only_file sample_profile) "gmon.txt" sample_profile
                     eq_refl) _ eq_refl)
    as (functions & Hret & _ & Hlen & _).
  exists functions. split; [exact Hret | exact Hlen].
Defined.

(** C7, as stated, fails: a well-formed data row that no header line
    precedes is dropped, so a section with one such row yields no record. *)
Lemma row_before_header_is_dropped :
  ~ (forall content section functions,
        flat_profile_section content = Some section ->
        snd (parse_gprof_file (only_file content) "gmon.txt")
        = Ok (Some functions) ->
        List.length functions
        = List.length (filter well_formed_row (splitlines section))).
Proof.
  intros H.
  specialize (H headerless_profile _ _ eq_refl eq_refl).
  vm_compute in H. discriminate H.
Qed.

(** C4, as amended. When no accepted row has a NaN for its share, the
    records returned are in descending order of [time_percent], and the
    records whose shares compare equal stand in the order of their rows in
    the text. *)
Theorem extraction_is_ranked (fs : filesystem) (filename : string)
        (functions : list function_record) :
  snd (parse_gprof_file fs filename) = Ok (Some functions) ->
  Forall (fun r => is_nan (time_percent r) = false) functions ->
  descending functions
  /\ exists content section,
      fs filename = Readable content
      /\ flat_profile_section content = Some section
      /\ Permutation functions (data_records (splitlines section))
      /\ forall v,
          with_share v functions
          = with_share v (data_records (splitlines section)).
Proof.
  intros Hret Hnan.
  destruct (parse_gprof_file_some _ _ _ Hret)
    as (content & section & Hfs & Hsec & ->).
  split.
  - apply sorted_reverse_sorted.
    now rewrite <- (sorted_reverse_perm time_percent).
  - exists content, section. repeat split; try assumption.
    + apply sorted_reverse_perm.
    + intros v. apply sorted_reverse_stable.
Qed.

Lemma extraction_is_ranked_witness :
  exists functions,
    snd (parse_gprof_file (only_file sample_profile) "gmon.txt")
    = Ok (Some functions)
    /\ descending functions.
Proof.
  eexists. split; [vm_compute; reflexivity|].
  refine (proj1 (extraction_is_ranked (only_file sample_profile) "gmon.txt"
                                      _ _ _)).
  - vm_compute. reflexivity.
  - repeat constructor.
Defined.

(** Whatever the order, two records or more with a NaN share among them
    are not in descending order: a NaN is neither [>=] nor [<=] anything. *)
Lemma nan_share_never_descending (l : list function_record)
      (r : function_record) :
  In r l -> is_nan (time_percent r) = true -> (2 <= List.length l)%nat ->
  ~ descending l.
Proof.
  intros Hin Hnan Hlen Hdesc. unfold descending in Hdesc.
  assert (Hr : time_percent r = S754_nan)
    by (destruct (time_percent r); try discriminate; reflexivity).
  induction Hdesc as [|a l Hsorted IH Hall].
  - destruct Hin.
  - destruct Hin as [<-|Hin].
    + destruct l as [|b l]; [simpl in Hlen; lia|].
      inversion Hall as [|? ? Hab _]; subst.
      unfold ge, le, SFleb in Hab. rewrite Hr in Hab.
      destruct (time_percent b); discriminate Hab.
    + rewrite Forall_forall in Hall. specialize (Hall r Hin).
      unfold ge, le, SFleb in Hall. rewrite Hr in Hall. discriminate Hall.
Qed.

Lemma nan_profile_has_no_ranking (section : string)
      (l : list function_record) :
  flat_profile_section nan_profile = Some section ->
  Permutation l (data_records (splitlines section)) ->
  ~ descending l.
Proof.
  intros Hsec Hperm.
  assert (Hrec : exists a r b,
             data_records (splitlines section) = [a; r; b]
             /\ is_nan (time_percent r) = true).
  { vm_compute in Hsec. injection Hsec as <-.
    do 3 eexists. split; vm_compute; reflexivity. }
  destruct Hrec as (a & r & b & Hrec & Hnan).
  rewrite Hrec in Hperm.
  apply (nan_share_never_descending l r).
  - apply (Permutation_in r (Permutation_sym Hperm)). simpl. auto.
  - exact Hnan.
  - rewrite (Permutation_length Hperm). simpl. lia.
Qed.

(** C4, as stated, fails: a share that reads as a NaN compares neither
    below nor above any other, and the rows around it are returned in the
    order of the text, 1.00 before 2.00. *)
Lemma nan_share_breaks_ranking :
  ~ (forall fs filename functions,
        snd (parse_gprof_file fs filename) = Ok (Some functions) ->
        descending functions).
Proof.
  intros H.
  assert (Hret : exists functions,
             snd (parse_gprof_file (only_file nan_profile) "gmon.txt")
             = Ok (Some functions)
             /\ map time_percent functions
                = [of_int 1; nan; of_int 2])
    by (eexists; split; vm_compute; reflexivity).
  destruct Hret as (functions & Hret & Hshares).
  apply H in Hret. unfold descending in Hret.
  destruct Hret as [|a l _ Hfirst]; [discriminate|].
  destruct Hfirst as [|b l Hnan _]; [discriminate|].
  injection Hshares as _ Hb _. unfold ge in Hnan. rewrite Hb in Hnan.
  destruct (time_percent a); discriminate Hnan.
Qed.

(** ** The rollup *)

Section Rollup.

Local Open Scope Z_scope.

Lemma share_ok_nonneg64 (x : float) : share_ok x = nonneg64 x.
Proof.
  unfold share_ok, ge, le, SFleb, prec, emax.
  change (of_int 0) with (S754_zero false).
  destruct x as [s|[|]| |[|] m e]; try reflexivity;
    cbn [valid_binary nonneg64 negb andb SFcompare];
    now destruct (bounded 53 1024 m e).
Qed.

Lemma of_int_100 : of_int 100 = hundred.
Proof. reflexivity. Qed.

Lemma generate_never_raises (function_name : string) :
  exists rec, generate_parallelization_recommendations function_name = Ok rec.
Proof.
  unfold generate_parallelization_recommendations.
  destruct (first_match recommendations (lower function_name));
    [now eexists|].
  repeat match goal with
         | |- context [str_in ?k (lower function_name)] =>
             destruct (str_in k (lower function_name)); cbn [orb andb]
         end; now eexists.
Qed.

(** Both sums stay non-negative binary64 values, the parallelizable one
    never above the total. *)
Lemma main_loop_invariant (hotspots : list function_record) :
  Forall (fun h => share_ok (time_percent h) = true) hotspots ->
  forall total par,
    nonneg64 total = true -> nonneg64 par = true ->
    units par <= units total ->
    exists total' par',
      main_loop hotspots total par = Ok (total', par')
      /\ nonneg64 total' = true /\ nonneg64 par' = true
      /\ units par' <= units total'.
Proof.
  induction 1 as [|h rest Hh _ IH]; intros total par Ht Hp Hle.
  - exists total, par. now repeat split.
  - cbn [main_loop].
    destruct (generate_never_raises (name h)) as [rec ->]. cbn [bind].
    rewrite share_ok_nonneg64 in Hh.
    destruct (add_units total (time_percent h) Ht Hh) as [Hut Hnt].
    destruct (add_units par (time_percent h) Hp Hh) as [Hup Hnp].
    assert (H0t := units_nonneg total). assert (H0p := units_nonneg par).
    assert (H0h := units_nonneg (time_percent h)).
    destruct (truthy (parallelizable rec)).
    + apply IH; try assumption. unfold add, prec, emax. rewrite Hut, Hup.
      apply round_units_mono0. lia.
    + apply IH; try assumption. unfold add, prec, emax. rewrite Hut.
      rewrite <- (round_units_units par Hp).
      apply round_units_mono0. lia.
Qed.

Lemma le_zero_nonneg64 (x : float) :
  nonneg64 x = true -> le (of_int 0) x = true.
Proof.
  intros Hx. unfold le. rewrite leb_units by (assumption || reflexivity).
  apply Z.leb_le. apply units_nonneg.
Qed.

Lemma mul_hundred_le (q : float) :
  nonneg64 q = true -> units q <= 2 ^ 1074 ->
  nonneg64 (mul q (of_int 100)) = true
  /\ le (mul q (of_int 100)) (of_int 100) = true.
Proof.
  intros Hq Hu. rewrite of_int_100.
  destruct q as [s|[|]| |[|] m e]; try discriminate Hq.
  - destruct s; split; reflexivity.
  - exfalso. cbn [units] in Hu. unfold top in Hu.
    assert (2 ^ 1074 < 2 ^ 2098) by (apply pow2_lt; lia). lia.
  - cbn [nonneg64 negb andb] in Hq.
    destruct (mul_hundred_finite m e Hq) as [Hr Hn].
    split; [exact Hn|].
    unfold le, mul, prec, emax.
    rewrite leb_units by (assumption || reflexivity).
    apply Z.leb_le. rewrite Hr.
    assert (Hu100 : units hundred = 2 ^ 1074 * 100).
    { unfold units, hundred. change (-46 + 1074) with 1028.
      change (Z.pos 7036874417766400) with (100 * 2 ^ 46).
      change 1074 with (46 + 1028). rewrite (pow2_split 46 1028) by lia.
      generalize (2 ^ 46) (2 ^ 1028). intros; ring. }
    assert (Hh : units hundred = round_units (2 ^ 1074 * 100))
      by (rewrite <- Hu100; symmetry; now apply round_units_units).
    rewrite Hh. apply round_units_mono0. cbn [units] in Hu.
    assert (H0 := units_nonneg (S754_finite false m e)). cbn [units] in H0.
    lia.
Qed.

Lemma efficiency_bounds (total par : float) :
  nonneg64 total = true -> nonneg64 par = true ->
  units par <= units total -> is_finite total = true ->
  le (of_int 0) (efficiency total par) = true
  /\ le (efficiency total par) (of_int 100) = true.
Proof.
  intros Ht Hp Hle Hfin. unfold efficiency.
  destruct total as [st|[|]| |[|] mt et];
    try discriminate Ht; try discriminate Hfin.
  - destruct st; split; reflexivity.
  - change (gt (S754_finite false mt et) (of_int 0)) with true. cbv iota.
    cbn [nonneg64 negb andb] in Ht.
    assert (Hq : nonneg64 (div par (S754_finite false mt et)) = true
                 /\ units (div par (S754_finite false mt et)) <= 2 ^ 1074).
    { destruct par as [sp|[|]| |[|] mp ep]; try discriminate Hp.
      - destruct sp; split; try reflexivity; cbn [div SFdiv xorb units];
          apply Z.lt_le_incl, pow2_pos; lia.
      - exfalso. assert (Hlt := units_finite_lt_top mt et Ht).
        cbn [units] in Hle. lia.
      - cbn [nonneg64 negb andb] in Hp. cbn [units] in Hle.
        now apply div_le_one. }
    destruct Hq as [Hnq Huq].
    destruct (mul_hundred_le _ Hnq Huq) as [Hn Hl].
    split; [now apply le_zero_nonneg64 | exact Hl].
Qed.

Lemma efficiency_zero_total (total par : float) :
  eq total (of_int 0) = true -> eq (efficiency total par) (of_int 0) = true.
Proof.
  intros Heq. unfold efficiency.
  destruct (gt total (of_int 0)) eqn:Hgt; [|reflexivity].
  apply gt_not_eq in Hgt. congruence.
Qed.

End Rollup.

(** C3, as amended. For a hotspot list whose shares are binary64 values not
    below zero, the rollup is computed without error; when
    [total_hotspot_time] is finite, [parallel_efficiency] lies between 0 and
    100; and [parallel_efficiency] is 0 whenever [total_hotspot_time] is 0. *)
Theorem parallel_efficiency_bounded (hotspots : list function_record) :
  Forall (fun h => share_ok (time_percent h) = true) hotspots ->
  exists s,
    main_summary hotspots = Ok s
    /\ (is_finite (total_hotspot_time s) = true ->
        le (of_int 0) (parallel_efficiency s) = true
        /\ le (parallel_efficiency s) (of_int 100) = true)
    /\ (eq (total_hotspot_time s) (of_int 0) = true ->
        eq (parallel_efficiency s) (of_int 0) = true).
Proof.
  intros Hshares.
  destruct (main_loop_invariant hotspots Hshares (of_int 0) (of_int 0)
                                eq_refl eq_refl (Z.le_refl _))
    as (total & par & Hloop & Ht & Hp & Hle).
  unfold main_summary. rewrite Hloop. cbn [bind].
  eexists. split; [reflexivity|]. cbn [total_hotspot_time parallel_efficiency].
  split.
  - intros Hfin. now apply efficiency_bounds.
  - apply efficiency_zero_total.
Qed.

Lemma parallel_efficiency_bounded_witness :
  exists s,
    main_summary (hotspots_of sample_profile) = Ok s
    /\ le (of_int 0) (parallel_efficiency s) = true
    /\ le (parallel_efficiency s) (of_int 100) = true.
Proof.
  assert (Hshares : Forall (fun h => share_ok (time_percent h) = true)
                           (hotspots_of sample_profile))
    by (vm_compute; repeat constructor).
  destruct (parallel_efficiency_bounded (hotspots_of sample_profile) Hshares)
    as (s & Hs & Hbounds & _).
  exists s. split; [exact Hs|]. apply Hbounds.
  revert Hs. vm_compute. intros [= <-]. reflexivity.
Defined.

(** C3, as stated, fails twice over. A profile whose only hotspot is
    [data_postprocessing] has an efficiency of 0 with a total of 50; and a
    share that reads as an infinity makes the efficiency a NaN, which is
    neither at least 0 nor at most 100. *)
Lemma efficiency_zero_with_positive_total :
  ~ (forall hotspots s,
        main_summary hotspots = Ok s ->
        eq (parallel_efficiency s) (of_int 0) = true
        <-> eq (total_hotspot_time s) (of_int 0) = true)
  /\ ~ (forall hotspots s,
          Forall (fun h => share_ok (time_percent h) = true) hotspots ->
          main_summary hotspots = Ok s ->
          le (of_int 0) (parallel_efficiency s) = true
          /\ le (parallel_efficiency s) (of_int 100) = true).
Proof.
  split.
  - intros H.
    assert (Hs : exists s,
               main_summary (hotspots_of sequential_profile) = Ok s
               /\ parallel_efficiency s = of_int 0
               /\ total_hotspot_time s = of_int 50)
      by (eexists; split; [vm_compute; reflexivity | split; reflexivity]).
    destruct Hs as (s & Hs & Heff & Htotal).
    apply H in Hs. rewrite Heff, Htotal in Hs.
    destruct Hs as [Hs _]. specialize (Hs eq_refl). discriminate Hs.
  - intros H.
    assert (Hs : exists s,
               main_summary (hotspots_of infinite_profile) = Ok s
               /\ parallel_efficiency s = nan)
      by (eexists; split; [vm_compute; reflexivity | reflexivity]).
    destruct Hs as (s & Hs & Heff).
    apply H in Hs; [|vm_compute; repeat constructor].
    rewrite Heff in Hs. destruct Hs as [Hs _]. discriminate Hs.
Qed.

(** The scenario of the specification: of the rows [12.50 ... matrix_multiply]
    and [0.40 ... helper], the first alone is a hotspot at the threshold 1.0;
    the total and the parallelizable time are 12.5 and the efficiency 100. *)
Example scenario_rollup :
  map name (hotspots_of sample_profile) = ["matrix_multiply"]
  /\ exists s,
      main_summary (hotspots_of sample_profile) = Ok s
      /\ float_of_str "12.50" = Ok (total_hotspot_time s)
      /\ float_of_str "12.50" = Ok (parallelizable_time s)
      /\ float_of_str "100.0" = Ok (parallel_efficiency s).
Proof.
  split; [vm_compute; reflexivity|].
  eexists. split; [vm_compute; reflexivity|].
  repeat split; vm_compute; reflexivity.
Qed.

(** ** More on the classifier *)

Section ClassifierRange.

Lemma first_match_key (d : list (string * recommendation)) (lowered : string)
      (rec : recommendation) :
  first_match d lowered = Some rec ->
  exists key, In (key, rec) d /\ str_in key lowered = true.
Proof.
  induction d as [|[k v] d IH]; simpl; [discriminate|].
  destruct (str_in k lowered) eqn:Hk.
  - intros [= <-]. exists k. auto.
  - intros H. destruct (IH H) as (key & Hin & Hkey). exists key. auto.
Qed.

Lemma first_match_none_inv (d : list (string * recommendation))
      (lowered : string) :
  first_match d lowered = None ->
  Forall (fun k => str_in k lowered = false) (map fst d).
Proof.
  induction d as [|[k v] d IH]; simpl; [constructor|].
  destruct (str_in k lowered) eqn:Hk; [discriminate|].
  intros H. constructor; [exact Hk | now apply IH].
Qed.

Lemma lower_char_idempotent (c : ascii) :
  lower_char (lower_char c) = lower_char c.
Proof. destruct c as [[] [] [] [] [] [] [] []]; reflexivity. Qed.

Lemma lower_idempotent (s : string) : lower (lower s) = lower s.
Proof.
  induction s as [|c s IH]; simpl; [reflexivity|].
  now rewrite lower_char_idempotent, IH.
Qed.

End ClassifierRange.

(** X1. The classifier never fails: each lookup of its secondary chain finds
    its key, and the verdict returned is one of the eight catalogue entries
    or the unknown verdict. *)
Theorem classifier_returns_catalogue_or_unknown (function_name : string) :
  exists rec,
    generate_parallelization_recommendations function_name = Ok rec
    /\ (In rec (map snd recommendations) \/ rec = unknown_recommendation).
Proof.
  unfold generate_parallelization_recommendations.
  destruct (first_match recommendations (lower function_name)) as [rec|] eqn:Hm.
  - exists rec. split; [reflexivity|]. left.
    destruct (first_match_key _ _ _ Hm) as (key & Hin & _).
    apply (in_map snd) in Hin. exact Hin.
  - repeat match goal with
           | |- context [str_in ?k (lower function_name)] =>
               destruct (str_in k (lower function_name)); cbn [orb andb]
           end;
      eexists; (split; [reflexivity|]);
      try (now right); left; cbn [map snd recommendations In]; tauto.
Qed.

(** X2. The classification ignores case: two names with the same lower-case
    form are given the same verdict, and a name is classified as its
    lower-case form is. *)
Theorem classification_ignores_case (a b : string) :
  lower a = lower b ->
  generate_parallelization_recommendations a
  = generate_parallelization_recommendations b
  /\ generate_parallelization_recommendations (lower a)
     = generate_parallelization_recommendations a.
Proof.
  intros Hab. unfold generate_parallelization_recommendations.
  now rewrite lower_idempotent, Hab.
Qed.

Lemma classification_ignores_case_witness :
  generate_parallelization_recommendations "Data_PreProcessing_SIMD"
  = generate_parallelization_recommendations "data_preprocessing_simd".
Proof.
  exact (proj1 (classification_ignores_case
                  "Data_PreProcessing_SIMD" "data_preprocessing_simd" eq_refl)).
Defined.

(** X3. In the secondary chain the test for "vector" together with "multiply"
    never decides: a name without catalogue key that contains "multiply" is
    given the verdict of [matrix_multiply], with or without "vector"; and the
    verdict of [matrix_vector_multiply] is returned only to names that
    contain that very key. *)
Theorem vector_multiply_test_is_dead (function_name : string) :
  (Forall (fun k => str_in k (lower function_name) = false)
          (map fst recommendations) ->
   str_in "multiply" (lower function_name) = true ->
   generate_parallelization_recommendations function_name
   = dict_getitem recommendations "matrix_multiply")
  /\ (forall rec,
         dict_getitem recommendations "matrix_vector_multiply" = Ok rec ->
         generate_parallelization_recommendations function_name = Ok rec ->
         str_in "matrix_vector_multiply" (lower function_name) = true).
Proof.
  split.
  - intros Hkeys Hmul. unfold generate_parallelization_recommendations.
    now rewrite (first_match_none _ _ Hkeys), Hmul.
  - intros rec [= <-]. unfold generate_parallelization_recommendations.
    destruct (first_match recommendations (lower function_name)) as [rec|] eqn:Hm.
    + intros [= ->].
      destruct (first_match_key _ _ _ Hm) as (key & Hin & Hkey).
      cbn [recommendations In] in Hin.
      repeat (destruct Hin as [Hin|Hin];
              [injection Hin as <-; try discriminate; try exact Hkey|]).
      destruct Hin.
    + repeat match goal with
             | |- context [str_in ?k (lower function_name)] =>
                 destruct (str_in k (lower function_name)); cbn [orb andb]
             end; intros H; discriminate H.
Qed.

Lemma vector_multiply_test_is_dead_witness :
  generate_parallelization_recommendations "vector_multiply"
  = dict_getitem recommendations "matrix_multiply".
Proof.
  apply (proj1 (vector_multiply_test_is_dead "vector_multiply")).
  - repeat constructor.
  - reflexivity.
Defined.

(** X4. What the verdict tells about the name: a verdict that is not
    parallelizable ([False]) is given only to names that contain
    "postprocess", and the unknown verdict ([None]) only to names in which no
    catalogue key and none of the words of the secondary chain occurs. *)
Theorem verdict_reflects_name (function_name : string) (rec : recommendation) :
  generate_parallelization_recommendations function_name = Ok rec ->
  (parallelizable rec = PyFalse ->
   str_in "postprocess" (lower function_name) = true)
  /\ (parallelizable rec = PyNone ->
      Forall (fun k => str_in k (lower function_name) = false)
             (map fst recommendations)
      /\ Forall (fun w => str_in w (lower function_name) = false)
                ["multiply"; "matmul"; "vector"; "preprocess"; "postprocess";
                 "init"; "sum"; "checksum"]).
Proof.
  unfold generate_parallelization_recommendations.
  destruct (first_match recommendations (lower function_name)) as [r|] eqn:Hm.
  - intros [= ->].
    destruct (first_match_key _ _ _ Hm) as (key & Hin & Hkey).
    cbn [recommendations In] in Hin.
    repeat (destruct Hin as [Hin|Hin];
            [injection Hin as <- <-; split; intros Hp; try discriminate Hp|]);
      try destruct Hin.
    exact (str_in_trans "postprocess" "data_postprocessing" _ eq_refl Hkey).
  - apply first_match_none_inv in Hm.
    repeat match goal with
           | |- context [str_in ?k (lower function_name)] =>
               let Hk := fresh "Hk" in
               destruct (str_in k (lower function_name)) eqn:Hk;
               cbn [orb andb]
           end;
      intros [= <-]; (split; intros Hp; try discriminate Hp);
      try reflexivity.
    split; [exact Hm|]. repeat constructor; assumption.
Qed.

Lemma verdict_reflects_name_witness :
  str_in "postprocess" (lower "Data_Postprocessing_pass") = true.
Proof.
  refine (proj1 (verdict_reflects_name "Data_Postprocessing_pass" _ _) _).
  - vm_compute. reflexivity.
  - reflexivity.
Defined.

(** ** More on the selection and the extractor *)

Section Selection.

Lemma analyze_hotspots_filter (functions : list function_record) (t : float) :
  analyze_hotspots functions t
  = filter (fun f => ge (time_percent f) t) functions.
Proof. now destruct functions. Qed.

Lemma filter_nil_when_none {B : Type} (p : B -> bool) (l : list B) :
  Forall (fun x => p x = false) l -> filter p l = [].
Proof.
  induction 1 as [|x l Hx _ IH]; [reflexivity|]. simpl. now rewrite Hx.
Qed.

End Selection.

(** X5. Selecting twice is selecting at the higher threshold: the hotspots
    at [t1] selected again at [t1] are unchanged, and selected again at a
    threshold [t2 >= t1] they are the hotspots at [t2]. *)
Theorem analyze_hotspots_composes
        (functions : list function_record) (t1 t2 : float) :
  analyze_hotspots (analyze_hotspots functions t1) t1
  = analyze_hotspots functions t1
  /\ (le t1 t2 = true ->
      analyze_hotspots (analyze_hotspots functions t1) t2
      = analyze_hotspots functions t2).
Proof.
  rewrite !analyze_hotspots_filter. split.
  - induction functions as [|f l IH]; [reflexivity|]. simpl.
    destruct (ge (time_percent f) t1) eqn:Hf; [|exact IH].
    simpl. now rewrite Hf, IH.
  - intros Hle. induction functions as [|f l IH]; [reflexivity|]. simpl.
    destruct (ge (time_percent f) t1) eqn:Hf1; simpl; rewrite IH.
    + reflexivity.
    + destruct (ge (time_percent f) t2) eqn:Hf2; [|reflexivity].
      pose proof (le_trans _ _ _ Hle Hf2) as Hf. unfold ge, le in *.
      congruence.
Qed.

Lemma analyze_hotspots_composes_witness :
  let f (share : Z) := {| name := "f"; time_percent := of_int share;
                          cumulative_seconds := of_int 1;
                          self_seconds := of_int 1; calls := "1" |} in
  analyze_hotspots (analyze_hotspots [f 30; f 5; f 0]%Z (of_int 1)) (of_int 10)
  = analyze_hotspots [f 30; f 5; f 0]%Z (of_int 10).
Proof.
  intros f.
  exact (proj2 (analyze_hotspots_composes
                  [f 30; f 5; f 0]%Z (of_int 1) (of_int 10)) eq_refl).
Defined.

(** X6. On a list in descending order of [time_percent], as the extractor
    returns it, the hotspots are the first records of the list, as many as
    there are hotspots, and they are in descending order themselves. *)
Theorem hotspots_of_ranked_list_are_a_prefix
        (functions : list function_record) (t : float) :
  descending functions ->
  analyze_hotspots functions t
  = firstn (List.length (analyze_hotspots functions t)) functions
  /\ descending (analyze_hotspots functions t).
Proof.
  rewrite analyze_hotspots_filter. unfold descending.
  induction 1 as [|f l Hsorted IH Hall]; [split; [reflexivity | constructor]|].
  simpl. destruct (ge (time_percent f) t) eqn:Hf.
  - destruct IH as [IHpre IHdesc]. simpl. split; [now f_equal|].
    constructor; [exact IHdesc|].
    rewrite Forall_forall in *. intros x Hx.
    apply filter_In in Hx. now apply Hall.
  - assert (Hnone : filter (fun f0 => ge (time_percent f0) t) l = []).
    { apply filter_nil_when_none. eapply Forall_impl; [|exact Hall].
      intros b Hfb. destruct (ge (time_percent b) t) eqn:Hb; [|reflexivity].
      pose proof (le_trans _ _ _ Hb Hfb) as Hf'. unfold ge, le in *.
      congruence. }
    rewrite Hnone. split; [reflexivity | constructor].
Qed.

Lemma hotspots_of_ranked_list_are_a_prefix_witness :
  exists functions,
    snd (parse_gprof_file (only_file sample_profile) "gmon.txt")
    = Ok (Some functions)
    /\ analyze_hotspots functions (of_int 1) = firstn 1 functions.
Proof.
  eexists. split; [vm_compute; reflexivity|].
  refine (eq_trans
            (proj1 (hotspots_of_ranked_list_are_a_prefix _ (of_int 1) _)) _).
  - repeat constructor.
  - reflexivity.
Defined.

Section ExtractorFacts.

Lemma after_header_without_header (ls : list string) :
  Forall (fun l => is_header l = false) ls -> after_header ls = [].
Proof.
  induction 1 as [|l ls Hl _ IH]; [reflexivity|]. simpl. now rewrite Hl.
Qed.

Lemma split_aux_tokens (s : string) :
  forall cur t,
    Forall (fun c => is_space c = false) cur ->
    In t (split_aux s cur) ->
    t <> "" /\ no_space t = true.
Proof.
  assert (Hflush : forall cur t,
             Forall (fun c => is_space c = false) cur ->
             cur <> [] -> t = string_of_list_ascii (rev cur) ->
             t <> "" /\ no_space t = true).
  { intros cur t Hcur Hne ->. split.
    - destruct (rev cur) as [|c r] eqn:Hrev; [|discriminate].
      apply (f_equal (@rev _)) in Hrev. rewrite rev_involutive in Hrev.
      now destruct Hne.
    - apply Forall_rev in Hcur. induction Hcur as [|c r Hc _ IH]; simpl;
        [reflexivity|]. now rewrite Hc, IH. }
  induction s as [|c s IH]; intros cur t Hcur Hin.
  - simpl in Hin. destruct cur as [|a cur]; [destruct Hin|].
    destruct Hin as [<-|[]]. now apply (Hflush (a :: cur)).
  - cbn [split_aux] in Hin. destruct (is_space c) eqn:Hc.
    + destruct cur as [|a cur]; [now apply (IH [] t)|].
      destruct Hin as [<-|Hin]; [now apply (Hflush (a :: cur))|].
      now apply (IH [] t).
    + apply (IH (c :: cur) t); [now constructor | exact Hin].
Qed.

Lemma split_tokens (s t : string) :
  In t (split s) -> t <> "" /\ no_space t = true.
Proof. apply split_aux_tokens. constructor. Qed.

Lemma last_in {B : Type} (l : list B) (d : B) : In (last l d) (d :: l).
Proof.
  revert d. induction l as [|a l IH]; intros d; [now left|].
  right. rewrite (last_cons l a d). apply IH.
Qed.

Lemma in_records_of (rows : list string) (r : function_record) :
  In r (records_of rows) -> exists row, In row rows /\ row_record row = Some r.
Proof.
  unfold records_of. rewrite in_flat_map. intros (row & Hrow & Hr).
  exists row. split; [exact Hrow|].
  destruct (row_record row) as [r'|]; [|destruct Hr].
  destruct Hr as [->|[]]. reflexivity.
Qed.

Lemma startswith_longer (u b p : string) :
  (String.length p <= String.length u)%nat ->
  startswith (u ++ b) p = startswith u p.
Proof.
  revert u. induction p as [|a p IH]; intros u Hlen; [reflexivity|].
  destruct u as [|c u]; [simpl in Hlen; lia|].
  simpl. rewrite IH; [reflexivity | simpl in Hlen; lia].
Qed.

Lemma startswith_length (u p : string) :
  startswith u p = true -> (String.length p <= String.length u)%nat.
Proof.
  revert u. induction p as [|a p IH]; intros u; [simpl; lia|].
  destruct u as [|c u]; [discriminate|]. simpl.
  rewrite andb_true_iff. intros [_ H]. apply IH in H. lia.
Qed.

Lemma str_in_length (k s : string) :
  str_in k s = true -> (String.length k <= String.length s)%nat.
Proof.
  induction s as [|c s IH]; cbn [str_in]; rewrite orb_true_iff.
  - intros [H|H]; [now apply startswith_length | discriminate].
  - intros [H|H]; [now apply startswith_length|].
    apply IH in H. simpl. lia.
Qed.

Lemma length_append (u b : string) :
  String.length (u ++ b) = (String.length u + String.length b)%nat.
Proof. induction u as [|c u IH]; simpl; [reflexivity | now rewrite IH]. Qed.

Lemma drop_app (n : nat) (u b : string) :
  (n <= String.length u)%nat -> drop n (u ++ b) = drop n u ++ b.
Proof.
  revert u. induction n as [|n IH]; intros u Hlen.
  - now destruct u.
  - destruct u as [|c u]; [simpl in Hlen; lia|].
    simpl. apply IH. simpl in Hlen. lia.
Qed.

(** The group stops at the mark, whatever follows it. *)
Lemma lazy_group_mark (r tail : string) :
  lazy_group (r ++ call_graph_mark ++ tail) = lazy_group (r ++ call_graph_mark).
Proof.
  induction r as [|c r IH].
  - reflexivity.
  - change (String c r ++ call_graph_mark ++ tail)
      with (String c (r ++ call_graph_mark ++ tail)).
    change (String c r ++ call_graph_mark)
      with (String c (r ++ call_graph_mark)).
    cbn [lazy_group].
    assert (Hs : startswith (String c (r ++ call_graph_mark ++ tail))
                            call_graph_mark
                 = startswith (String c (r ++ call_graph_mark)) call_graph_mark).
    { change (String c (r ++ call_graph_mark ++ tail))
        with (String c r ++ call_graph_mark ++ tail).
      rewrite <- append_assoc.
      apply startswith_longer.
      cbn [String.length]. rewrite length_append. simpl. lia. }
    fold call_graph_mark. rewrite Hs.
    assert (He : forall u,
               String.eqb (String c (r ++ call_graph_mark ++ u))
                          (String newline "") = false).
    { intros u. apply String.eqb_neq. intros [= _ H].
      destruct r; discriminate H. }
    rewrite (He tail).
    replace (String.eqb (String c (r ++ call_graph_mark)) (String newline ""))
      with false.
    2:{ symmetry. apply String.eqb_neq. intros [= _ H]. destruct r; discriminate H. }
    now rewrite IH.
Qed.

Lemma flat_profile_section_app (head tail : string) :
  str_in "Flat profile:" head = true ->
  exists r,
    forall tail, flat_profile_section (head ++ tail) = Some (lazy_group (r ++ tail)).
Proof.
  clear tail. induction head as [|c head IH]; [discriminate|].
  intros Hin. cbn [str_in] in Hin.
  destruct (startswith (String c head) "Flat profile:") eqn:Hs.
  - exists (drop (String.length "Flat profile:") (String c head)).
    intros tail.
    change (String c head ++ tail) with (String c (head ++ tail)).
    cbn [flat_profile_section].
    change (String c (head ++ tail)) with (String c head ++ tail).
    rewrite startswith_longer by (now apply startswith_length).
    rewrite Hs. rewrite drop_app by (now apply startswith_length). reflexivity.
  - cbn [orb] in Hin. destruct (IH Hin) as [r Hr]. exists r. intros tail.
    change (String c head ++ tail) with (String c (head ++ tail)).
    cbn [flat_profile_section].
    change (String c (head ++ tail)) with (String c head ++ tail).
    rewrite startswith_longer.
    + rewrite Hs. apply Hr.
    + apply str_in_length in Hin. simpl in *. lia.
Qed.

End ExtractorFacts.

(** X7. Nothing after the line "Call graph" is read: two texts that agree up
    to a newline followed by "Call graph", and contain "Flat profile:"
    before it, are parsed alike. *)
Theorem call_graph_section_is_not_read
        (filename head tail1 tail2 : string) :
  str_in "Flat profile:" head = true ->
  parse_gprof_file (only_file (head ++ call_graph_mark ++ tail1)) filename
  = parse_gprof_file (only_file (head ++ call_graph_mark ++ tail2)) filename.
Proof.
  intros Hin. destruct (flat_profile_section_app head "" Hin) as [r Hr].
  unfold parse_gprof_file, only_file.
  now rewrite !Hr, !lazy_group_mark.
Qed.

Lemma call_graph_section_is_not_read_witness :
  parse_gprof_file
    (only_file (sample_profile ++ call_graph_mark ++ " 99.0 1 1 1 extra"))
    "gmon.txt"
  = parse_gprof_file (only_file (sample_profile ++ call_graph_mark ++ ""))
                     "gmon.txt".
Proof.
  apply (call_graph_section_is_not_read "gmon.txt" sample_profile).
  reflexivity.
Defined.

(** X8. Without a header line nothing is extracted: when no line of the flat
    profile starts, once stripped, with a percent sign or with "time" (in any
    case), the extractor returns the empty list, whatever the rows. *)
Theorem no_header_no_record (fs : filesystem)
        (filename content section : string) :
  fs filename = Readable content ->
  flat_profile_section content = Some section ->
  Forall (fun line => is_header (strip line) = false) (splitlines section) ->
  parse_gprof_file fs filename = ([], Ok (Some [])).
Proof.
  intros Hfs Hsec Hnone.
  rewrite (parse_gprof_file_readable _ _ _ _ Hfs Hsec).
  unfold data_records, candidate_rows.
  rewrite after_header_without_header; [reflexivity|].
  unfold nonblank_lines. rewrite Forall_forall in *. intros l Hl.
  apply filter_In in Hl. destruct Hl as [Hl _].
  apply in_map_iff in Hl. destruct Hl as (line & <- & Hline). now apply Hnone.
Qed.

Lemma no_header_no_record_witness :
  parse_gprof_file (only_file headerless_profile) "gmon.txt"
  = ([], Ok (Some [])).
Proof.
  apply (no_header_no_record (only_file headerless_profile) "gmon.txt"
                             headerless_profile
                             (lazy_group (drop 13 headerless_profile))).
  - reflexivity.
  - reflexivity.
  - vm_compute. repeat constructor.
Defined.

(** X9. What every record returned by the extractor satisfies: its
    [time_percent] and [self_seconds] are not below zero, its name is a
    non-empty token without white space, and its [calls] field is a non-empty
    token, never the placeholder "null". *)
Theorem extracted_records_are_well_formed (fs : filesystem) (filename : string)
        (functions : list function_record) :
  snd (parse_gprof_file fs filename) = Ok (Some functions) ->
  Forall (fun r =>
            lt (time_percent r) (of_int 0) = false
            /\ lt (self_seconds r) (of_int 0) = false
            /\ name r <> "" /\ no_space (name r) = true
            /\ calls r <> "" /\ calls r <> "null")
         functions.
Proof.
  intros Hret.
  destruct (parse_gprof_file_some _ _ _ Hret)
    as (content & section & _ & _ & ->).
  rewrite (sorted_reverse_perm time_percent). rewrite Forall_forall.
  intros r Hr. unfold data_records in Hr.
  destruct (in_records_of _ _ Hr) as (row & _ & Hrow).
  unfold row_record in Hrow.
  destruct (tokens_record_fields _ _ Hrow)
    as (t0 & t1 & t2 & t3 & t4 & more & Hsplit & _ & _ & _ & Hcalls & Hname
        & Hshare & Hself).
  assert (Htok : forall t, In t (t0 :: t1 :: t2 :: t3 :: t4 :: more) ->
                           t <> "" /\ no_space t = true)
    by (intros t Ht; apply (split_tokens row); now rewrite Hsplit).
  split; [exact Hshare|]. split; [exact Hself|].
  assert (Hn : In (name r) (t0 :: t1 :: t2 :: t3 :: t4 :: more)).
  { rewrite Hname. do 4 right. apply last_in. }
  destruct (Htok _ Hn) as [Hn1 Hn2].
  split; [exact Hn1|]. split; [exact Hn2|].
  rewrite Hcalls. destruct (String.eqb_spec t3 "null") as [->|Hne].
  - split; discriminate.
  - split; [|exact Hne]. apply (Htok t3). simpl. auto.
Qed.

Lemma extracted_records_are_well_formed_witness :
  exists functions,
    snd (parse_gprof_file (only_file sample_profile) "gmon.txt")
    = Ok (Some functions)
    /\ Forall (fun r => name r <> "" /\ calls r <> "null") functions.
Proof.
  eexists. split; [vm_compute; reflexivity|].
  eapply Forall_impl;
    [|apply (extracted_records_are_well_formed
               (only_file sample_profile) "gmon.txt");
      vm_compute; reflexivity].
  intros r (_ & _ & Hn & _ & _ & Hc). now split.
Defined.

(** ** More on the rollup and on [main] *)

Section RollupFacts.

Local Open Scope Z_scope.

Lemma main_loop_total_grows (hotspots : list function_record) :
  Forall (fun h => share_ok (time_percent h) = true) hotspots ->
  forall total par total' par',
    nonneg64 total = true ->
    main_loop hotspots total par = Ok (total', par') ->
    nonneg64 total' = true
    /\ units total <= units total'
    /\ Forall (fun h => units (time_percent h) <= units total') hotspots.
Proof.
  induction 1 as [|h rest Hh _ IH]; intros total par total' par' Ht Hloop.
  - injection Hloop as <- <-. split; [exact Ht|]. split; [lia | constructor].
  - cbn [main_loop] in Hloop.
    destruct (generate_never_raises (name h)) as [rec Hrec].
    rewrite Hrec in Hloop. cbn [bind] in Hloop.
    rewrite share_ok_nonneg64 in Hh.
    destruct (add_units total (time_percent h) Ht Hh) as [Hu Hn].
    apply IH in Hloop; [|exact Hn].
    destruct Hloop as (Hn' & Hle & Hall).
    unfold add, prec, emax in Hle. rewrite Hu in Hle.
    assert (H0t := units_nonneg total).
    assert (H0h := units_nonneg (time_percent h)).
    assert (H1 : round_units (units total)
                 <= round_units (units total + units (time_percent h)))
      by (apply round_units_mono0; lia).
    assert (H2 : round_units (units (time_percent h))
                 <= round_units (units total + units (time_percent h)))
      by (apply round_units_mono0; lia).
    rewrite round_units_units in H1, H2 by assumption.
    split; [exact Hn'|]. split; [lia|]. constructor; [lia | exact Hall].
Qed.

Lemma div_self (m : positive) (e : Z) :
  div (S754_finite false m e) (S754_finite false m e) = of_int 1.
Proof.
  unfold div, SFdiv, SFdiv_core_binary, prec, emax. cbn [xorb].
  replace (Zdigits2 (Z.pos m) + e - (Zdigits2 (Z.pos m) + e)) with 0 by lia.
  replace (e - e) with 0 by lia.
  change (Z.min (fexp 53 1024 0) 0) with (-53).
  change (0 - -53) with 53. cbv iota.
  rewrite Z.shiftl_mul_pow2 by lia.
  assert (Hd : Z.div_eucl (Z.pos m * 2 ^ 53) (Z.pos m) = (2 ^ 53, 0)).
  { assert (Hq : (Z.pos m * 2 ^ 53) / Z.pos m = 2 ^ 53)
      by (rewrite Z.mul_comm; apply Z.div_mul; lia).
    assert (Hr : (Z.pos m * 2 ^ 53) mod Z.pos m = 0)
      by (rewrite Z.mul_comm; apply Z.mod_mul; lia).
    unfold Z.div, Z.modulo in Hq, Hr.
    destruct (Z.div_eucl (Z.pos m * 2 ^ 53) (Z.pos m)) as [q r].
    cbn [fst snd] in Hq, Hr. now subst. }
  rewrite Hd, new_location_zero. reflexivity.
Qed.

Lemma efficiency_of_nothing (total : float) :
  efficiency total (of_int 0) = of_int 0.
Proof. now destruct total as [s|[|]| |[|] m e]. Qed.

Lemma efficiency_of_everything (total : float) :
  efficiency total total
  = if gt total (of_int 0)
    then if is_finite total then of_int 100 else nan
    else of_int 0.
Proof.
  destruct total as [s|[|]| |[|] m e]; try reflexivity.
  unfold efficiency.
  change (gt (S754_finite false m e) (of_int 0)) with true. cbv iota.
  rewrite div_self. reflexivity.
Qed.


Lemma main_loop_none_parallelizable (hotspots : list function_record) :
  Forall (fun h => exists rec,
              generate_parallelization_recommendations (name h) = Ok rec
              /\ truthy (parallelizable rec) = false) hotspots ->
  forall total par,
    exists total', main_loop hotspots total par = Ok (total', par).
Proof.
  induction 1 as [|h rest (rec & Hrec & Hp) _ IH]; intros total par.
  - now exists total.
  - cbn [main_loop]. rewrite Hrec. cbn [bind]. rewrite Hp. apply IH.
Qed.

Lemma main_loop_all_parallelizable (hotspots : list function_record) :
  Forall (fun h => exists rec,
              generate_parallelization_recommendations (name h) = Ok rec
              /\ truthy (parallelizable rec) = true) hotspots ->
  forall total,
    exists total', main_loop hotspots total total = Ok (total', total').
Proof.
  induction 1 as [|h rest (rec & Hrec & Hp) _ IH]; intros total.
  - now exists total.
  - cbn [main_loop]. rewrite Hrec. cbn [bind]. rewrite Hp. apply IH.
Qed.

End RollupFacts.

(** X10. For hotspots whose shares are binary64 values not below zero, the
    parallelizable time lies between 0 and the total hotspot time, and the
    total is at least the share of every hotspot: rounding in the sums never
    reverses these orders. *)
Theorem parallelizable_time_within_total (hotspots : list function_record) :
  Forall (fun h => share_ok (time_percent h) = true) hotspots ->
  exists s,
    main_summary hotspots = Ok s
    /\ le (of_int 0) (parallelizable_time s) = true
    /\ le (parallelizable_time s) (total_hotspot_time s) = true
    /\ Forall (fun h => le (time_percent h) (total_hotspot_time s) = true)
              hotspots.
Proof.
  intros Hshares.
  destruct (main_loop_invariant hotspots Hshares (of_int 0) (of_int 0)
                                eq_refl eq_refl (Z.le_refl _))
    as (total & par & Hloop & Ht & Hp & Hle).
  destruct (main_loop_total_grows hotspots Hshares (of_int 0) (of_int 0)
                                  total par eq_refl Hloop)
    as (_ & _ & Hall).
  unfold main_summary. rewrite Hloop. cbn [bind].
  eexists. split; [reflexivity|].
  cbn [total_hotspot_time parallelizable_time].
  split; [now apply le_zero_nonneg64|]. split.
  - unfold le. rewrite leb_units by assumption. now apply Z.leb_le.
  - rewrite Forall_forall in *. intros h Hh. unfold le.
    rewrite leb_units;
      [apply Z.leb_le; now apply Hall
      | rewrite <- share_ok_nonneg64; now apply Hshares
      | assumption].
Qed.

Lemma parallelizable_time_within_total_witness :
  exists s,
    main_summary [sample_record "matrix_multiply" 60;
                  sample_record "data_postprocessing" 30] = Ok s
    /\ le (parallelizable_time s) (total_hotspot_time s) = true.
Proof.
  destruct (parallelizable_time_within_total
              [sample_record "matrix_multiply" 60;
               sample_record "data_postprocessing" 30])
    as (s & Hs & _ & Hle & _).
  - constructor; [reflexivity|]. constructor; [reflexivity | constructor].
  - exists s. split; [exact Hs | exact Hle].
Defined.

(** X11. When no hotspot is parallelizable, whatever the shares, the
    parallelizable time, the efficiency and the speedup potential are all
    exactly 0, and the potential reported is the limited one. *)
Theorem nothing_parallelizable_is_limited (hotspots : list function_record) :
  Forall (fun h => exists rec,
              generate_parallelization_recommendations (name h) = Ok rec
              /\ truthy (parallelizable rec) = false) hotspots ->
  exists s,
    main_summary hotspots = Ok s
    /\ parallelizable_time s = of_int 0
    /\ parallel_efficiency s = of_int 0
    /\ speedup_potential s = of_int 0
    /\ potential s = Limited.
Proof.
  intros Hnone.
  destruct (main_loop_none_parallelizable hotspots Hnone (of_int 0) (of_int 0))
    as [total Hloop].
  unfold main_summary. rewrite Hloop. cbn [bind].
  eexists. split; [reflexivity|].
  cbn [parallelizable_time parallel_efficiency speedup_potential potential].
  rewrite efficiency_of_nothing. now repeat split.
Qed.

Lemma nothing_parallelizable_is_limited_witness :
  exists s,
    main_summary [sample_record "data_postprocessing" 50;
                  sample_record "run_benchmark" 30] = Ok s
    /\ potential s = Limited.
Proof.
  destruct (nothing_parallelizable_is_limited
              [sample_record "data_postprocessing" 50;
               sample_record "run_benchmark" 30])
    as (s & Hs & _ & _ & _ & Hp).
  - constructor; [|constructor; [|constructor]];
      (eexists; split; [vm_compute; reflexivity | reflexivity]).
  - exists s. split; [exact Hs | exact Hp].
Defined.

(** X12. When every hotspot is parallelizable, whatever the shares, the
    parallelizable time is the total hotspot time, bit for bit, and the
    efficiency is exactly 100 for a finite total above 0, a NaN for an
    infinite total, and 0 otherwise. *)
Theorem everything_parallelizable_is_100 (hotspots : list function_record) :
  Forall (fun h => exists rec,
              generate_parallelization_recommendations (name h) = Ok rec
              /\ truthy (parallelizable rec) = true) hotspots ->
  exists s,
    main_summary hotspots = Ok s
    /\ parallelizable_time s = total_hotspot_time s
    /\ parallel_efficiency s
       = if gt (total_hotspot_time s) (of_int 0)
         then if is_finite (total_hotspot_time s) then of_int 100 else nan
         else of_int 0.
Proof.
  intros Hall.
  destruct (main_loop_all_parallelizable hotspots Hall (of_int 0))
    as [total Hloop].
  unfold main_summary. rewrite Hloop. cbn [bind].
  eexists. split; [reflexivity|].
  cbn [parallelizable_time parallel_efficiency total_hotspot_time].
  split; [reflexivity | apply efficiency_of_everything].
Qed.

Lemma everything_parallelizable_is_100_witness :
  exists s,
    main_summary [sample_record "matrix_multiply" 60;
                  sample_record "vector_add" 7] = Ok s
    /\ parallelizable_time s = total_hotspot_time s.
Proof.
  destruct (everything_parallelizable_is_100
              [sample_record "matrix_multiply" 60;
               sample_record "vector_add" 7])
    as (s & Hs & Hp & _).
  - constructor; [|constructor; [|constructor]];
      (eexists; split; [vm_compute; reflexivity | reflexivity]).
  - exists s. split; [exact Hs | exact Hp].
Defined.

(** ** The floats read from a profile *)

Section ParsedFloats.

Local Open Scope Z_scope.

(** Rounding a non-negative mantissa gives a valid float that is not
    negative. *)
Lemma round_aux_nonneg64 (m : Z) (l : location) (e : Z) :
  0 <= m -> 0 <= fexp 53 1024 (Zdigits2 m + e) - e ->
  nonneg64 (binary_round_aux 53 1024 false m e l) = true.
Proof.
  intros Hm Hn. rewrite binary_round_aux_spec by assumption.
  set (n := fexp 53 1024 (Zdigits2 m + e) - e) in *.
  assert (Hfit := rnd_fits m l e Hm Hn). fold n in Hfit.
  assert (Hc : -1074 <= e + n) by (subst n; rewrite fexp_eq; lia).
  apply nonneg64_pack; try assumption.
  destruct (Z.eq_dec (e + n) (-1074)) as [|Hne]; [now left | right].
  destruct (Z.eq_dec m 0) as [->|Hm0].
  - exfalso. subst n. rewrite fexp_eq in *. cbn [Zdigits2] in *. lia.
  - apply rnd_normal; try lia; fold n; lia.
Qed.

Lemma binary_round_nonneg64 (m : positive) (e : Z) :
  nonneg64 (binary_round 53 1024 false m e) = true.
Proof.
  unfold binary_round.
  change (Z.pos (digits2_pos m)) with (Zdigits2 (Z.pos m)).
  set (f := fexp 53 1024 (Zdigits2 (Z.pos m) + e)).
  destruct (Z.le_gt_cases e f) as [Hle|Hgt].
  - rewrite shl_align_keep by assumption.
    apply round_aux_nonneg64; [lia | fold f; lia].
  - assert (Hfst := shl_align_fst m e f ltac:(lia)).
    assert (Hsnd : snd (shl_align m e f) = f).
    { unfold shl_align. destruct (f - e) eqn:Hd; try lia. reflexivity. }
    destruct (shl_align m e f) as [mz ez]. cbn [fst snd] in Hfst, Hsnd.
    subst ez. apply round_aux_nonneg64; [lia|].
    rewrite Hfst, Zdigits2_shift by lia.
    replace (Zdigits2 (Z.pos m) + (e - f) + f) with (Zdigits2 (Z.pos m) + e)
      by lia.
    fold f. lia.
Qed.

(** The quotient [SFdiv_core_binary] returns has the bits its rounding
    needs. *)
Lemma div_core_nonneg64 (ma mb : positive) (ea eb : Z) :
  let '(q, e, l) := SFdiv_core_binary 53 1024 (Z.pos ma) ea (Z.pos mb) eb in
  nonneg64 (binary_round_aux 53 1024 false q e l) = true.
Proof.
  unfold SFdiv_core_binary.
  set (d1 := Zdigits2 (Z.pos ma)). set (d2 := Zdigits2 (Z.pos mb)).
  assert (Hd1 := Zdigits2_bounds (Z.pos ma) ltac:(lia)). fold d1 in Hd1.
  assert (Hd2 := Zdigits2_bounds (Z.pos mb) ltac:(lia)). fold d2 in Hd2.
  assert (Hd1p := Zdigits2_pos (Z.pos ma) ltac:(lia)). fold d1 in Hd1p.
  assert (Hd2p := Zdigits2_pos (Z.pos mb) ltac:(lia)). fold d2 in Hd2p.
  set (D := d1 + ea - (d2 + eb)).
  set (e' := Z.min (fexp 53 1024 D) (ea - eb)).
  set (s := ea - eb - e').
  assert (Hs : 0 <= s) by (subst s e'; lia).
  set (m' := match s with
             | 0 => Z.pos ma
             | Z.pos _ => Z.shiftl (Z.pos ma) s
             | Z.neg _ => 0
             end).
  assert (Hm' : m' = Z.pos ma * 2 ^ s).
  { subst m'. destruct s as [|p|p] eqn:Hsp; try lia.
    now rewrite Z.shiftl_mul_pow2 by lia. }
  clearbody m'.
  assert (Hps := pow2_pos s Hs).
  assert (Hm'ge : 2 ^ (d1 - 1 + s) <= m').
  { rewrite Hm', pow2_split by lia. apply Z.mul_le_mono_nonneg_r; lia. }
  pose proof (Z_div_mod m' (Z.pos mb) ltac:(lia)) as Hdm.
  destruct (Z.div_eucl m' (Z.pos mb)) as [q r].
  destruct Hdm as [Hqr Hr].
  assert (Hq0 : 0 <= q) by nia.
  apply round_aux_nonneg64; [exact Hq0|].
  assert (He' : e' <= fexp 53 1024 D) by (subst e'; lia).
  rewrite fexp_eq in *.
  destruct (Z.eq_dec q 0) as [->|Hq].
  - assert (Hlt : 2 ^ (d1 - 1 + s) < 2 ^ d2) by lia.
    assert (Hlt' : d1 - 1 + s < d2) by (apply pow2_lt_inv; lia).
    assert (HDe : D <= e') by (subst D s; lia).
    cbn [Zdigits2]. lia.
  - assert (Hdq : D - e' <= Zdigits2 q).
    { assert (Hqp := Zdigits2_pos q ltac:(lia)).
      destruct (Z.le_gt_cases (d1 - d2 + s) 1) as [Hk|Hk];
        [subst D s; lia|].
      assert (Hk0 : 0 <= d1 + s - d2 - 1) by lia.
      assert (Hq2 : 2 ^ (d1 + s - d2 - 1) <= q).
      { apply (quot_ge m' (Z.pos mb) q r _ (2 ^ d2) Hqr Hr);
          [apply pow2_pos; lia | | lia].
        rewrite <- pow2_split by lia.
        replace (d1 + s - d2 - 1 + d2) with (d1 - 1 + s) by lia. assumption. }
      assert (Hdig := Zdigits2_le (2 ^ (d1 + s - d2 - 1)) q
                                  (pow2_pos _ Hk0) Hq2).
      rewrite Zdigits2_pow2 in Hdig by lia. subst D s. lia. }
    lia.
Qed.

(** Rounding with a minus sign gives nothing above zero. *)
Lemma round_aux_minus (m : Z) (l : location) (e : Z) :
  le (of_int 0) (binary_round_aux 53 1024 true m e l) = true ->
  nonneg64 (binary_round_aux 53 1024 true m e l) = true.
Proof.
  unfold binary_round_aux.
  destruct (shr_fexp 53 1024 m e l) as [mrs' e'].
  destruct (shr_fexp 53 1024 _ e' loc_Exact) as [mrs'' e''].
  destruct (shr_m mrs'') as [|p|p]; [reflexivity | | discriminate].
  destruct (e'' <=? 1024 - 53); discriminate.
Qed.

Lemma power_of_ten_pos (k : Z) : 0 <= k -> exists t, 10 ^ k = Z.pos t.
Proof.
  intros Hk. assert (H : 0 < 10 ^ k) by (apply Z.pow_pos_nonneg; lia).
  destruct (10 ^ k) as [|t|t]; try lia. now exists t.
Qed.

Lemma of_decimal_nonneg64 (neg : bool) (d k : Z) :
  le (of_int 0) (of_decimal neg d k) = true ->
  nonneg64 (of_decimal neg d k) = true.
Proof.
  unfold of_decimal, prec, emax. destruct d as [|p|p];
    [reflexivity | | discriminate].
  destruct (Z.leb_spec 0 k) as [Hk|Hk].
  - destruct (power_of_ten_pos k Hk) as [t ->].
    destruct neg; cbn [Z.mul Z.opp binary_normalize].
    + unfold binary_round.
      destruct (shl_align _ _ _) as [mz ez]. apply round_aux_minus.
    + intros _. apply binary_round_nonneg64.
  - destruct (power_of_ten_pos (- k) ltac:(lia)) as [t ->].
    destruct neg.
    + destruct (SFdiv_core_binary 53 1024 (Z.pos p) 0 (Z.pos t) 0)
        as [[q e] l]. apply round_aux_minus.
    + intros _. assert (H := div_core_nonneg64 p t 0 0).
      now destruct (SFdiv_core_binary 53 1024 (Z.pos p) 0 (Z.pos t) 0)
        as [[q e] l].
Qed.

Lemma parse_decimal_nonneg64 (neg : bool) (s : string) (x : float) :
  parse_decimal neg s = Some x ->
  le (of_int 0) x = true -> nonneg64 x = true.
Proof.
  unfold parse_decimal.
  destruct (read_digits s 0 0) as [[i ni] s1].
  destruct (match s1 with
            | String c s1' =>
                if (nat_of_ascii c =? 46)%nat then read_digits s1' i 0
                else (i, 0, s1)
            | EmptyString => (i, 0, s1)
            end) as [[d nf] s2].
  destruct (ni + nf =? 0); [discriminate|].
  destruct s2 as [|c s2']; [intros [= <-]; apply of_decimal_nonneg64|].
  destruct (_ || _); [|discriminate].
  destruct (read_sign s2') as [eneg s3].
  destruct (read_digits s3 0 0) as [[e ne] s4].
  destruct (ne =? 0); [discriminate|].
  destruct s4; [|discriminate].
  intros [= <-]. apply of_decimal_nonneg64.
Qed.

(** A string that [float] reads as a value not below zero is read as a valid
    binary64 value. *)
Lemma float_of_str_nonneg64 (s : string) (x : float) :
  float_of_str s = Ok x -> le (of_int 0) x = true -> nonneg64 x = true.
Proof.
  unfold float_of_str.
  destruct (remove_underscores "000" s) as [t|]; [|discriminate].
  destruct (read_sign t) as [neg body].
  destruct (_ || _).
  { intros [= <-]. now destruct neg. }
  destruct (String.eqb _ _); [intros [= <-]; discriminate|].
  destruct (parse_decimal neg body) as [y|] eqn:Hy; [|discriminate].
  intros [= <-]. now apply (parse_decimal_nonneg64 neg body).
Qed.

End ParsedFloats.

(** ** From the profile to the rollup *)

Section EndToEnd.

Lemma extracted_share_ok (t : string) (x : float) :
  float_of_str t = Ok x -> lt x (of_int 0) = false ->
  is_nan x = true \/ share_ok x = true.
Proof.
  intros Hread Hlt. destruct (is_nan x) eqn:Hnan; [now left | right].
  rewrite share_ok_nonneg64.
  apply (float_of_str_nonneg64 t x Hread).
  now apply (not_lt_ge x (of_int 0)).
Qed.

Lemma ge_not_nan (x t : float) : ge x t = true -> is_nan x = false.
Proof. destruct x as [s|s| |s m e]; try reflexivity. now destruct t. Qed.


(** The shares of an extracted record were read by [float] and are not
    below zero. *)
Lemma parsed_record_shares (fs : filesystem) (filename : string)
      (functions : list function_record) (r : function_record) :
  snd (parse_gprof_file fs filename) = Ok (Some functions) ->
  In r functions ->
  (is_nan (time_percent r) = true \/ share_ok (time_percent r) = true)
  /\ (is_nan (self_seconds r) = true \/ share_ok (self_seconds r) = true).
Proof.
  intros Hret Hr.
  destruct (parse_gprof_file_some _ _ _ Hret)
    as (content & section & _ & _ & ->).
  apply (Permutation_in _ (sorted_reverse_perm time_percent _)) in Hr.
  unfold data_records in Hr.
  destruct (in_records_of _ _ Hr) as (row & _ & Hrow).
  unfold row_record in Hrow.
  destruct (tokens_record_fields _ _ Hrow)
    as (t0 & t1 & t2 & t3 & t4 & more & _ & H0 & _ & H2 & _ & _
        & Hshare & Hself).
  split; [exact (extracted_share_ok t0 _ H0 Hshare)
         | exact (extracted_share_ok t2 _ H2 Hself)].
Qed.

End EndToEnd.

(** X13. The extractor ignores blank lines and the white space around a
    line: two texts whose flat profiles have the same stripped non-blank
    lines are parsed alike. *)
Theorem blank_lines_and_margins_are_ignored
        (filename content1 content2 section1 section2 : string) :
  flat_profile_section content1 = Some section1 ->
  flat_profile_section content2 = Some section2 ->
  nonblank_lines (splitlines section1) = nonblank_lines (splitlines section2) ->
  parse_gprof_file (only_file content1) filename
  = parse_gprof_file (only_file content2) filename.
Proof.
  intros H1 H2 Hlines.
  rewrite (parse_gprof_file_readable (only_file content1) filename
                                     content1 section1 eq_refl H1).
  rewrite (parse_gprof_file_readable (only_file content2) filename
                                     content2 section2 eq_refl H2).
  unfold data_records, candidate_rows. now rewrite Hlines.
Qed.

Lemma blank_lines_and_margins_are_ignored_witness :
  parse_gprof_file (only_file sequential_profile) "gmon.txt"
  = parse_gprof_file (only_file padded_sequential_profile) "gmon.txt".
Proof.
  apply (blank_lines_and_margins_are_ignored
           "gmon.txt" sequential_profile padded_sequential_profile
           (lazy_group (drop 13 sequential_profile))
           (lazy_group (drop 13 padded_sequential_profile)));
    vm_compute; reflexivity.
Defined.

(** X14. The shares the extractor returns are binary64 values: the
    [time_percent] and the [self_seconds] of every record are a NaN or a
    valid binary64 value that is not below zero. *)
Theorem extracted_shares_are_binary64 (fs : filesystem) (filename : string)
        (functions : list function_record) :
  snd (parse_gprof_file fs filename) = Ok (Some functions) ->
  Forall (fun r =>
            (is_nan (time_percent r) = true
             \/ share_ok (time_percent r) = true)
            /\ (is_nan (self_seconds r) = true
                \/ share_ok (self_seconds r) = true))
         functions.
Proof.
  intros Hret. rewrite Forall_forall. intros r Hr.
  exact (parsed_record_shares fs filename functions r Hret Hr).
Qed.

Lemma extracted_shares_are_binary64_witness :
  exists functions,
    snd (parse_gprof_file (only_file nan_profile) "gmon.txt")
    = Ok (Some functions)
    /\ Forall (fun r => is_nan (time_percent r) = true
                        \/ share_ok (time_percent r) = true) functions.
Proof.
  eexists. split; [vm_compute; reflexivity|].
  eapply Forall_impl;
    [|apply (extracted_shares_are_binary64 (only_file nan_profile) "gmon.txt");
      vm_compute; reflexivity].
  intros r [H _]. exact H.
Defined.

(** X15. Whatever the profile file, the rollup [main] computes from the
    records extracted from it is sound: the hotspots have valid shares not
    below zero, the rollup raises nothing, the parallelizable time lies
    between 0 and the total, and the efficiency lies between 0 and 100 when
    the total is finite. *)
Theorem rollup_of_any_profile (fs : filesystem) (filename : string)
        (functions : list function_record) :
  snd (parse_gprof_file fs filename) = Ok (Some functions) ->
  Forall (fun h => share_ok (time_percent h) = true) (main_hotspots functions)
  /\ exists s,
      main_summary (main_hotspots functions) = Ok s
      /\ le (of_int 0) (parallelizable_time s) = true
      /\ le (parallelizable_time s) (total_hotspot_time s) = true
      /\ (is_finite (total_hotspot_time s) = true ->
          le (of_int 0) (parallel_efficiency s) = true
          /\ le (parallel_efficiency s) (of_int 100) = true).
Proof.
  intros Hret.
  assert (Hshares : Forall (fun h => share_ok (time_percent h) = true)
                           (main_hotspots functions)).
  { unfold main_hotspots. rewrite analyze_hotspots_filter, Forall_forall.
    intros h Hh. apply filter_In in Hh. destruct Hh as [Hin Hge].
    destruct (parsed_record_shares fs filename functions h Hret Hin)
      as [[Hnan|Hok] _]; [|exact Hok].
    apply ge_not_nan in Hge. congruence. }
  split; [exact Hshares|].
  destruct (main_loop_invariant _ Hshares (of_int 0) (of_int 0)
                                eq_refl eq_refl (Z.le_refl _))
    as (total & par & Hloop & Ht & Hp & Hle).
  unfold main_summary. rewrite Hloop. cbn [bind].
  eexists. split; [reflexivity|].
  cbn [parallelizable_time total_hotspot_time parallel_efficiency].
  split; [now apply le_zero_nonneg64|]. split.
  - unfold le. rewrite leb_units by assumption. now apply Z.leb_le.
  - intros Hfin. now apply efficiency_bounds.
Qed.

Lemma rollup_of_any_profile_witness :
  exists functions s,
    snd (parse_gprof_file (only_file nan_profile) "gmon.txt")
    = Ok (Some functions)
    /\ main_summary (main_hotspots functions) = Ok s
    /\ le (parallelizable_time s) (total_hotspot_time s) = true.
Proof.
  assert (Hf : exists functions,
             snd (parse_gprof_file (only_file nan_profile) "gmon.txt")
             = Ok (Some functions))
    by (eexists; vm_compute; reflexivity).
  destruct Hf as [functions Hf].
  destruct (rollup_of_any_profile (only_file nan_profile) "gmon.txt"
                                  functions Hf)
    as (_ & s & Hs & _ & Hle & _).
  exists functions, s. split; [exact Hf|]. split; [exact Hs | exact Hle].
Defined.


